(** * swirlnet.make-archive: the novelty-search archive of [src/main.js]

    A shallow embedding of the closure returned by [makeArchive] and of its
    five methods, followed by the properties of the archive that the
    specification states.

    Modelling conventions.
    - JavaScript numbers are exact rationals ([Q]); rounding, [NaN] and the
      infinities are outside the model.  [Infinity] as the default of
      [maxArchiveSize] is [None].
    - A JavaScript value that a caller can pass is a [value]: a primitive or
      an array of values.
    - A method is a function from the variables captured by the closure
      ([archive_state]) to an [outcome] and the variables afterwards: a
      thrown exception keeps the assignments made before it.
    - The distance function is a total function into numbers.
    - [Array.prototype.sort] is an insertion sort driven by the comparator. *)

From Stdlib Require Import List String Bool Arith ZArith QArith Qabs.
From Stdlib Require Import Lia Permutation Sorted.
Import ListNotations.

Local Open Scope nat_scope.
Set Warnings "-register-all".

(** ** JavaScript values *)

Inductive value : Type :=
| VUndefined
| VNull
| VBool (b : bool)
| VNum (q : Q)
| VStr (s : string)
| VArr (l : list value).

(** [typeof v] *)
Definition typeof (v : value) : string :=
  match v with
  | VUndefined => "undefined"
  | VNull => "object"
  | VBool _ => "boolean"
  | VNum _ => "number"
  | VStr _ => "string"
  | VArr _ => "object"
  end.

(** [Array.isArray(v)] *)
Definition Array_isArray (v : value) : bool :=
  match v with
  | VArr _ => true
  | _ => false
  end.

(** [typeof v === "string"] *)
Definition is_string (v : value) : bool :=
  match v with
  | VStr _ => true
  | _ => false
  end.

(** [a < b] and [a >= b] on numbers. *)
Definition num_lt (a b : Q) : bool := negb (Qle_bool b a).
Definition num_ge (a b : Q) : bool := Qle_bool b a.

(** The number of a length or an index. *)
Definition num_of_nat (n : nat) : Q := inject_Z (Z.of_nat n).

(** Modelled from the spec: [util.isInt] belongs to the package
    swirlnet.util, whose sources are not part of this repository; the
    specification reads it as "integer": the value is a number and has no
    fractional part. *)
Definition isInt (v : value) : bool :=
  match v with
  | VNum q => Pos.eqb (Qden (Qred q)) 1
  | _ => false
  end.

(** Modelled from the spec: [util.copy] belongs to the package
    swirlnet.util, whose sources are not part of this repository; the
    specification reads it as an independent copy.  Values of the model are
    immutable, so the copy is the value. *)
Definition util_copy {A : Type} (x : A) : A := x.

(** ** Exceptions and the method monad *)

Inductive error : Type :=
| AssertionError (message : string)
| TypeError (message : string).

Inductive outcome (A : Type) : Type :=
| Return (a : A)
| Throw (e : error).

Arguments Return {A} a.
Arguments Throw {A} e.

Definition returned {A : Type} (o : outcome A) : bool :=
  match o with
  | Return _ => true
  | Throw _ => false
  end.

(** [v.length]: reading a property of [undefined] or [null] throws; numbers
    and booleans have no such property, so the result is [undefined]
    ([None]). *)
Definition get_length (v : value) : outcome (option nat) :=
  match v with
  | VUndefined => Throw (TypeError "Cannot read property 'length' of undefined")
  | VNull => Throw (TypeError "Cannot read property 'length' of null")
  | VBool _ => Return None
  | VNum _ => Return None
  | VStr s => Return (Some (String.length s))
  | VArr l => Return (Some (List.length l))
  end.

(** ** The options object *)

(** A property that may hold a function: the distance function itself, or
    any other value ([Other VUndefined] when the property is absent). *)
Inductive function_property : Type :=
| Function (f : value -> value -> Q)
| Other (v : value).

Record Options : Type := mkOptions {
  kNearestNeighbors : value;
  archiveThreshold : value;
  behaviorDistanceFunction : function_property;
  maxArchiveSize : value
}.

(** The argument of [makeArchive]: an object with the four properties, or a
    value without them. *)
Inductive argument : Type :=
| Object (o : Options)
| Plain (v : value).

(** ** The variables captured by the closure *)

(** [[behavior, genome]] *)
Definition observation : Type := value * value.

(** What the methods read of [options] and of [init]'s choices, once the
    assertions of [makeArchive] have passed: both counts are integers
    greater than zero. *)
Record config : Type := mkConfig {
  options_kNearestNeighbors : positive;
  options_archiveThreshold : Q;
  max_archive_size : option positive;
  measureBehaviorDistance : value -> value -> Q
}.

Record archive_state : Type := mkState {
  behaviorArchive : list observation;
  recentBehaviors : list observation;
  dimensionality : option nat;
  sparsities : list Q;
  sparsitiesCalculatedThisGeneration : bool
}.

Definition set_behaviorArchive (a : list observation) (st : archive_state) :=
  mkState a (recentBehaviors st) (dimensionality st) (sparsities st)
          (sparsitiesCalculatedThisGeneration st).

Definition set_recentBehaviors (r : list observation) (st : archive_state) :=
  mkState (behaviorArchive st) r (dimensionality st) (sparsities st)
          (sparsitiesCalculatedThisGeneration st).

Definition set_dimensionality (d : option nat) (st : archive_state) :=
  mkState (behaviorArchive st) (recentBehaviors st) d (sparsities st)
          (sparsitiesCalculatedThisGeneration st).

Definition set_sparsities (s : list Q) (st : archive_state) :=
  mkState (behaviorArchive st) (recentBehaviors st) (dimensionality st) s
          (sparsitiesCalculatedThisGeneration st).

Definition set_calculated (b : bool) (st : archive_state) :=
  mkState (behaviorArchive st) (recentBehaviors st) (dimensionality st)
          (sparsities st) b.

Definition M (A : Type) : Type := archive_state -> outcome A * archive_state.

Definition ret {A : Type} (a : A) : M A := fun st => (Return a, st).

Definition throw {A : Type} (e : error) : M A := fun st => (Throw e, st).

Definition bind {A B : Type} (m : M A) (k : A -> M B) : M B :=
  fun st =>
    match m st with
    | (Return a, st') => k a st'
    | (Throw e, st') => (Throw e, st')
    end.

Definition get : M archive_state := fun st => (Return st, st).

Definition modify (f : archive_state -> archive_state) : M unit :=
  fun st => (Return tt, f st).

Definition lift {A : Type} (o : outcome A) : M A := fun st => (o, st).

Definition assert (b : bool) (message : string) : M unit :=
  if b then ret tt else throw (AssertionError message).

Declare Scope method_scope.
Delimit Scope method_scope with method.
Notation "x <- m ;; k" := (bind m (fun x => k))
  (at level 61, m at next level, right associativity) : method_scope.
Notation "m ;; k" := (bind m (fun _ => k))
  (at level 61, right associativity) : method_scope.

Local Open Scope method_scope.

(** [for (i = ...; ...; i += 1) { body(i) }] over the indices [l]. *)
Fixpoint for_each (l : list nat) (body : nat -> M unit) : M unit :=
  match l with
  | [] => ret tt
  | i :: rest => body i ;; for_each rest body
  end.

(** ** Array methods used by the closure *)

(** [a.sort(compare)]: [x] goes after [y] when [compare(x, y) > 0]. *)
Fixpoint sort_insert (compare : Q -> Q -> Q) (x : Q) (l : list Q) : list Q :=
  match l with
  | [] => [x]
  | y :: rest =>
      if num_lt 0 (compare x y) then y :: sort_insert compare x rest
      else x :: y :: rest
  end.

Fixpoint Array_sort (compare : Q -> Q -> Q) (l : list Q) : list Q :=
  match l with
  | [] => []
  | x :: rest => sort_insert compare x (Array_sort compare rest)
  end.

(** [function (a, b) { return a - b; }] *)
Definition ascending : Q -> Q -> Q := fun a b => (a - b)%Q.

(** [a.slice(0, n)] *)
Definition Array_slice0 (n : nat) (l : list Q) : list Q := firstn n l.

(** [a.reduce(f)] without an initial value: the first element starts the
    accumulation, and an empty array throws. *)
Definition Array_reduce (f : Q -> Q -> Q) (l : list Q) : outcome Q :=
  match l with
  | [] => Throw (TypeError "Reduce of empty array with no initial value")
  | x :: rest => Return (fold_left f rest x)
  end.

(** [a.splice(0, n)] as it leaves the array. *)
Definition Array_splice0 {A : Type} (n : nat) (l : list A) : list A := skipn n l.

(** ** The methods *)

Section Methods.

Variable cfg : config.

(** The second loop of [measureSparsity]: [i] runs over the positions of
    [rest], and the position [recentBehaviorIndex] is skipped. *)
Fixpoint sibling_distances (behavior : value) (recentBehaviorIndex i : nat)
         (rest : list observation) : list Q :=
  match rest with
  | [] => []
  | o :: rest' =>
      if negb (i =? recentBehaviorIndex)
      then measureBehaviorDistance cfg (fst o) behavior
             :: sibling_distances behavior recentBehaviorIndex (S i) rest'
      else sibling_distances behavior recentBehaviorIndex (S i) rest'
  end.

(** [distances] of [measureSparsity] before it is sorted. *)
Definition distances_of (st : archive_state) (behavior : value)
           (recentBehaviorIndex : nat) : list Q :=
  map (fun archivedBehavior => measureBehaviorDistance cfg (fst archivedBehavior) behavior)
      (behaviorArchive st)
  ++ sibling_distances behavior recentBehaviorIndex 0 (recentBehaviors st).

Definition effectiveKNearestNeighbors (distances : list Q) : nat :=
  if List.length distances <? Pos.to_nat (options_kNearestNeighbors cfg)
  then List.length distances
  else Pos.to_nat (options_kNearestNeighbors cfg).

(** [measureSparsity(recentBehaviorIndex)]; it assigns no captured
    variable. *)
Definition measureSparsity (st : archive_state) (recentBehaviorIndex : nat)
  : outcome Q :=
  match nth_error (recentBehaviors st) recentBehaviorIndex with
  | None =>
      Throw (AssertionError "swirlnet: internal error: recent behavior index must be an integer greater than or equal to zero and less than the number of recent behaviors.")
  | Some o =>
      let distances := distances_of st (fst o) recentBehaviorIndex in
      let k := effectiveKNearestNeighbors distances in
      let sorted := Array_sort ascending distances in
      match Array_reduce Qplus (Array_slice0 k sorted) with
      | Throw e => Throw e
      | Return total => Return (total / num_of_nat k)%Q
      end
  end.

(** [calculateSparsities()] *)
Definition calculateSparsities : M unit :=
  st <- get ;;
  assert (0 <? List.length (recentBehaviors st))
    "swirlnet: error: recent behavior count must be greater than zero." ;;
  assert ((List.length (sparsities st) =? 0)
          || (List.length (sparsities st) =? List.length (recentBehaviors st)))
    "swirlnet: error: sparsities may only be calculated once all behaviors have been added." ;;
  (if negb (List.length (sparsities st) =? List.length (recentBehaviors st)) then
     modify (set_sparsities []) ;;
     for_each (seq 0 (List.length (recentBehaviors st)))
       (fun i =>
          now <- get ;;
          sparsity <- lift (measureSparsity now i) ;;
          modify (fun s => set_sparsities (sparsities s ++ [sparsity]) s))
   else ret tt) ;;
  modify (set_calculated true).

(** [noteBehavior(behavior, genome)] *)
Definition noteBehavior (behavior genome : value) : M unit :=
  st <- get ;;
  (match dimensionality st with
   | None =>
       len <- lift (get_length behavior) ;;
       modify (set_dimensionality len)
   | Some _ => ret tt
   end) ;;
  st <- get ;;
  assert (negb (sparsitiesCalculatedThisGeneration st))
    "swirlnet:error: behaviors must be archived and cleared by calling ArchiveAndClear() after calling getSparsities() (of an entire generation) before behaviors in the next generation may be recorded." ;;
  assert (Array_isArray behavior)
    "swirlnet: error: behavior must be an array." ;;
  assert (is_string genome)
    "swirlnet: error: genome must be a string." ;;
  len <- lift (get_length behavior) ;;
  assert (match len, dimensionality st with
          | Some n, Some d => n =? d
          | None, None => true
          | _, _ => false
          end)
    "swirlnet: error: behavior dimensionality must match prior behavior dimensionalities: " ;;
  modify (fun s => set_recentBehaviors (recentBehaviors s ++ [(behavior, genome)]) s).

(** [getSparsities()] *)
Definition getSparsities : M (list Q) :=
  calculateSparsities ;;
  st <- get ;;
  ret (util_copy (sparsities st)).

(** [getArchive()] *)
Definition getArchive : M (list observation) :=
  st <- get ;;
  ret (util_copy (behaviorArchive st)).

(** [getArchiveLength()] *)
Definition getArchiveLength : M nat :=
  st <- get ;;
  ret (List.length (behaviorArchive st)).

(** [pruneArchive()] *)
Definition pruneArchive : M unit :=
  len <- getArchiveLength ;;
  match max_archive_size cfg with
  | Some m =>
      if Pos.to_nat m <? len then
        len' <- getArchiveLength ;;
        modify (fun s =>
                  set_behaviorArchive
                    (Array_splice0 (len' - Pos.to_nat m) (behaviorArchive s)) s)
      else ret tt
  | None => ret tt
  end.

(** The loop of [archiveAndClear]: [sparsities[i] >= options.archiveThreshold]
    is false when [sparsities[i]] is [undefined]. *)
Definition archive_if_sparse (i : nat) : M unit :=
  st <- get ;;
  match nth_error (sparsities st) i, nth_error (recentBehaviors st) i with
  | Some sparsity, Some o =>
      if num_ge sparsity (options_archiveThreshold cfg)
      then modify (fun s => set_behaviorArchive (behaviorArchive s ++ [o]) s)
      else ret tt
  | _, _ => ret tt
  end.

(** [archiveAndClear()] *)
Definition archiveAndClear : M unit :=
  calculateSparsities ;;
  st <- get ;;
  for_each (seq 0 (List.length (recentBehaviors st))) archive_if_sparse ;;
  pruneArchive ;;
  modify (set_recentBehaviors []) ;;
  modify (set_sparsities []) ;;
  modify (set_calculated false).

End Methods.

(** The variables after [init()]; [dimensionality] is declared and not
    assigned. *)
Definition init : archive_state :=
  mkState [] [] None [] false.

(** ** Construction *)

Section Construction.

(** [defaultBehaviorDistanceFunction], the Euclidean distance: its square
    root is not a rational, so the function is a parameter of the
    construction. *)
Variable defaultBehaviorDistanceFunction : value -> value -> Q.

Definition positive_of_num (v : value) : positive :=
  match v with
  | VNum q => Z.to_pos (Qnum (Qred q))
  | _ => 1%positive
  end.

Definition num_of_value (v : value) : Q :=
  match v with
  | VNum q => q
  | _ => 0%Q
  end.

(** [v > 0], used after [util.isInt(v)] holds. *)
Definition greater_than_zero (v : value) : bool :=
  match v with
  | VNum q => num_lt 0 q
  | _ => false
  end.

Definition is_undefined (v : value) : bool :=
  match v with
  | VUndefined => true
  | _ => false
  end.

(** The assertions of [makeArchive] on the properties of an object. *)
Definition check_options (o : Options) : M unit :=
  assert (isInt (kNearestNeighbors o) && greater_than_zero (kNearestNeighbors o))
    "swirlnet: error: kNearestNeighbors option must be an integer greater than zero." ;;
  assert (isInt (archiveThreshold o) && greater_than_zero (archiveThreshold o))
    "swirlnet: error: archiveThreshold must be an integer greater than zero." ;;
  assert (match behaviorDistanceFunction o with
          | Function _ => true
          | Other v => is_undefined v
          end)
    "swirlnet: error: behaviorDistanceFunction must be a function or unspecified (undefined)." ;;
  assert ((isInt (maxArchiveSize o) && greater_than_zero (maxArchiveSize o))
          || is_undefined (maxArchiveSize o))
    "swirlnet: error: maxArchiveSize must be a positive integer or unspecified (undefined).".

(** The configuration that the methods of the new object read. *)
Definition config_of (o : Options) : config :=
  mkConfig (positive_of_num (kNearestNeighbors o))
           (num_of_value (archiveThreshold o))
           (match maxArchiveSize o with
            | VNum q => Some (Z.to_pos (Qnum (Qred q)))
            | _ => None
            end)
           (match behaviorDistanceFunction o with
            | Function f => f
            | Other _ => defaultBehaviorDistanceFunction
            end).

(** An object without the four properties reads each of them as
    [undefined]. *)
Definition no_properties : Options :=
  mkOptions VUndefined VUndefined (Other VUndefined) VUndefined.

(** [makeArchive(options)]: the new object is its configuration and its
    captured variables. *)
Definition makeArchive (options : argument) : outcome (config * archive_state) :=
  match options with
  | Object o =>
      match fst (check_options o init) with
      | Return _ => Return (config_of o, init)
      | Throw e => Throw e
      end
  | Plain v =>
      if String.eqb (typeof v) "object" then
        match v with
        | VNull => Throw (TypeError "Cannot read property 'kNearestNeighbors' of null")
        | _ =>
            match fst (check_options no_properties init) with
            | Return _ => Return (config_of no_properties, init)
            | Throw e => Throw e
            end
        end
      else
        Throw (AssertionError "swirlnet: error: novelty search options argument must be an object.")
  end.

End Construction.

(** ** Calls and traces *)

Inductive call : Type :=
| NoteBehavior (behavior genome : value)
| GetSparsities
| ArchiveAndClear
| GetArchive
| GetArchiveLength.

(** The captured variables after one call, whether it returned or threw. *)
Definition after (cfg : config) (c : call) (st : archive_state) : archive_state :=
  match c with
  | NoteBehavior behavior genome => snd (noteBehavior behavior genome st)
  | GetSparsities => snd (getSparsities cfg st)
  | ArchiveAndClear => snd (archiveAndClear cfg st)
  | GetArchive => snd (getArchive st)
  | GetArchiveLength => snd (getArchiveLength st)
  end.

Definition run (cfg : config) (calls : list call) (st : archive_state) : archive_state :=
  fold_left (fun s c => after cfg c s) calls st.

(** A state that some sequence of calls on a new object leads to. *)
Definition reachable (cfg : config) (st : archive_state) : Prop :=
  exists calls, st = run cfg calls init.

(** ** The sparsity of the specification

    The definitions of this part follow the words of the specification; the
    theorems compare them with [measureSparsity]. *)

(** The buffer without its position [i]: every other observation. *)
Definition others {A : Type} (i : nat) (l : list A) : list A :=
  firstn i l ++ skipn (S i) l.

(** The candidate distances of the observation [B] at position [i]:
    [distance(B, A)] for every archived entry [A], and [distance(B, B')] for
    every other observation [B'] of the generation buffer. *)
Definition candidate_distances (cfg : config) (st : archive_state)
           (i : nat) (B : value) : list Q :=
  map (fun A => measureBehaviorDistance cfg B (fst A)) (behaviorArchive st)
  ++ map (fun B' => measureBehaviorDistance cfg B (fst B')) (others i (recentBehaviors st)).

(** [k_eff = min(kNearestNeighbors, size of candidate set)] *)
Definition k_eff (cfg : config) (candidates : list Q) : nat :=
  Nat.min (Pos.to_nat (options_kNearestNeighbors cfg)) (List.length candidates).

(** [nearest] is the [k] smallest of [candidates], in ascending order. *)
Definition k_smallest (k : nat) (candidates nearest : list Q) : Prop :=
  List.length nearest = k
  /\ StronglySorted Qle nearest
  /\ exists farther,
       Permutation (nearest ++ farther) candidates
       /\ forall x y, In x nearest -> In y farther -> (x <= y)%Q.

Definition sum (l : list Q) : Q := fold_right Qplus 0%Q l.

Definition arithmetic_mean (l : list Q) : Q :=
  (sum l / num_of_nat (List.length l))%Q.

(** The distance function is a metric in the sense that the order of its
    arguments does not matter. *)
Definition symmetric (cfg : config) : Prop :=
  forall x y, measureBehaviorDistance cfg x y = measureBehaviorDistance cfg y x.

(** ** What the calls compute, as pure functions of the state *)

(** The sparsities of the whole buffer; a position where [measureSparsity]
    throws reads 0. *)
Definition sparsity_values (cfg : config) (st : archive_state) : list Q :=
  map (fun i => match measureSparsity cfg st i with
                | Return q => q
                | Throw _ => 0%Q
                end)
      (seq 0 (List.length (recentBehaviors st))).

(** Every observation has a candidate distance: the buffer is not alone
    with an empty archive. *)
Definition has_candidates (st : archive_state) : Prop :=
  2 <= List.length (behaviorArchive st) + List.length (recentBehaviors st).

(** The observations of the buffer whose sparsity reaches the threshold, in
    recording order. *)
Definition novel (cfg : config) (scores : list Q) (recent : list observation)
  : list observation :=
  map fst (filter (fun p => num_ge (snd p) (options_archiveThreshold cfg))
                  (combine recent scores)).

(** Dropping the oldest entries down to [maxArchiveSize]. *)
Definition pruned (cfg : config) (archive : list observation) : list observation :=
  match max_archive_size cfg with
  | Some m =>
      if Pos.to_nat m <? List.length archive
      then skipn (List.length archive - Pos.to_nat m) archive
      else archive
  | None => archive
  end.

(** ** Invariants of the reachable states *)

(** Either nothing is cached and recording is open, or the cache holds the
    sparsities of the whole buffer and recording is closed. *)
Definition cache_coherent (cfg : config) (st : archive_state) : Prop :=
  (sparsitiesCalculatedThisGeneration st = false /\ sparsities st = [])
  \/ (sparsitiesCalculatedThisGeneration st = true
      /\ recentBehaviors st <> []
      /\ has_candidates st
      /\ sparsities st = sparsity_values cfg st).

Definition within_bound (cfg : config) (st : archive_state) : Prop :=
  match max_archive_size cfg with
  | Some m => List.length (behaviorArchive st) <= Pos.to_nat m
  | None => True
  end.

(** Every stored behavior is an array of the established length. *)
Definition same_dimension (st : archive_state) : Prop :=
  forall o, In o (behaviorArchive st ++ recentBehaviors st) ->
    exists l, fst o = VArr l /\ dimensionality st = Some (List.length l).

Definition invariant (cfg : config) (st : archive_state) : Prop :=
  cache_coherent cfg st /\ within_bound cfg st /\ same_dimension st.

(** The first [NoteBehavior] of a trace, if any. *)
Fixpoint first_record (calls : list call) : option (value * value) :=
  match calls with
  | [] => None
  | NoteBehavior behavior genome :: _ => Some (behavior, genome)
  | _ :: rest => first_record rest
  end.

(** ** The statements of the specification that the code does not meet
    as they are written *)

(** What [archiveAndClear] leaves: the archive extended by the novel
    observations and pruned, and the buffer, the cache and the guard
    cleared. *)
Definition finalized (cfg : config) (st : archive_state) : Prop :=
  exists st',
    archiveAndClear cfg st = (Return tt, st')
    /\ behaviorArchive st'
       = pruned cfg (behaviorArchive st
                     ++ novel cfg (sparsity_values cfg st) (recentBehaviors st))
    /\ recentBehaviors st' = []
    /\ sparsities st' = []
    /\ sparsitiesCalculatedThisGeneration st' = false.

(** [getSparsities] twice in a row: the same sequence, read the second time
    from the cache, whatever the distance function has become. *)
Definition cache_stable (cfg : config) (st : archive_state) : Prop :=
  exists scores st1,
    getSparsities cfg st = (Return scores, st1)
    /\ getSparsities cfg st1 = (Return scores, st1)
    /\ sparsities st1 = scores
    /\ List.length scores = List.length (recentBehaviors st1)
    /\ forall cfg', getSparsities cfg' st1 = (Return scores, st1).

Definition function_or_absent (o : Options) : Prop :=
  match behaviorDistanceFunction o with
  | Function _ => True
  | Other v => v = VUndefined
  end.

Definition positive_integer (v : value) : Prop :=
  isInt v = true /\ greater_than_zero v = true.

Definition positive_integer_or_absent (v : value) : Prop :=
  positive_integer v \/ v = VUndefined.

(** The options that the specification lists as valid: [archiveThreshold]
    is any number greater than zero. *)
Definition valid_as_specified (o : Options) : Prop :=
  positive_integer (kNearestNeighbors o)
  /\ (exists q, archiveThreshold o = VNum q /\ (0 < q)%Q)
  /\ function_or_absent o
  /\ positive_integer_or_absent (maxArchiveSize o).

(** The options that [makeArchive] accepts. *)
Definition valid (o : Options) : Prop :=
  positive_integer (kNearestNeighbors o)
  /\ positive_integer (archiveThreshold o)
  /\ function_or_absent o
  /\ positive_integer_or_absent (maxArchiveSize o).

(** ** Concrete objects *)

(** A distance on arrays of numbers that stays rational: the sum of the
    absolute differences. *)
Fixpoint manhattan_list (a b : list value) : Q :=
  match a, b with
  | VNum x :: a', VNum y :: b' => (Qabs (x - y) + manhattan_list a' b')%Q
  | _, _ => 0%Q
  end.

Definition manhattan (x y : value) : Q :=
  match x, y with
  | VArr a, VArr b => manhattan_list a b
  | _, _ => 0%Q
  end.

(** [kNearestNeighbors = 1], [archiveThreshold = 2], [maxArchiveSize = 2]. *)
Definition example_options : Options :=
  mkOptions (VNum 1) (VNum 2) (Function manhattan) (VNum 2).

Definition example_config : config := config_of manhattan example_options.

Definition fractional_threshold_options : Options :=
  mkOptions (VNum 1) (VNum (5 # 2)) (Other VUndefined) VUndefined.

Definition origin : value := VArr [VNum 0; VNum 0].
Definition far : value := VArr [VNum 10; VNum 0].

(** One observation recorded on a new object. *)
Definition alone : archive_state :=
  run example_config [NoteBehavior origin (VStr "g1")] init.

(** Two observations recorded on a new object. *)
Definition pair : archive_state :=
  run example_config
      [NoteBehavior origin (VStr "g1"); NoteBehavior far (VStr "g2")] init.


(** ** The default distance function *)

Section DefaultDistance.

(** [Math.sqrt]: the square root of a rational is in general not a
    rational, so the function is a parameter. *)
Variable Math_sqrt : Q -> Q.

(** The number that the subtraction makes of an operand that is not a
    number (a string, a boolean, an array, [undefined], [null]); the
    properties below are stated for arrays of numbers, where it is not
    used. *)
Variable ToNumber : value -> Q.

Definition number_of (v : value) : Q :=
  match v with
  | VNum q => q
  | _ => ToNumber v
  end.

(** [a[i]]: [undefined] out of range. *)
Definition element (a : list value) (i : nat) : value := nth i a VUndefined.

(** [Math.pow(x, n)] for an integer [n]. *)
Definition Math_pow (x : Q) (n : Z) : Q := Qpower x n.

(** The loop of [defaultBehaviorDistanceFunction] over the indices that are
    left, with [distanceSquared] as it stands. *)
Fixpoint distance_loop (behavior0 behavior1 : list value) (indices : list nat)
         (distanceSquared : Q) : Q :=
  match indices with
  | [] => distanceSquared
  | i :: rest =>
      distance_loop behavior0 behavior1 rest
        (distanceSquared
         + Math_pow (number_of (element behavior0 i) - number_of (element behavior1 i)) 2)%Q
  end.

(** [defaultBehaviorDistanceFunction(behavior0, behavior1)] *)
Definition defaultBehaviorDistanceFunction (behavior0 behavior1 : value) : outcome Q :=
  match behavior0, behavior1 with
  | VArr a, VArr b =>
      if List.length a =? List.length b then
        Return (Math_sqrt (distance_loop a b (seq 0 (List.length a)) 0%Q))
      else
        Throw (AssertionError "swirlnet: internal error: behaviors have differing dimensionality.")
  | _, _ =>
      Throw (AssertionError "swirlnet: internal error: behaviors must be arrays.")
  end.

End DefaultDistance.

(** The sum of the squared differences of two vectors, position by
    position. *)
Definition sum_of_squares (a b : list Q) : Q :=
  sum (map (fun p => ((fst p - snd p) * (fst p - snd p))%Q) (combine a b)).

(** An array of numbers. *)
Definition vector (a : list Q) : value := VArr (map VNum a).

(** The behaviors and genomes that a state stores, archive first. *)
Definition stored (st : archive_state) : list observation :=
  behaviorArchive st ++ recentBehaviors st.

(** A square root that is exact on the squares of rationals, and a
    coercion, to run the default distance function on examples. *)
Definition example_sqrt (q : Q) : Q :=
  Z.sqrt (Qnum (Qred q)) # Pos.sqrt (Qden (Qred q)).

Definition example_ToNumber (v : value) : Q := 0%Q.

(** [kNearestNeighbors = 1], [archiveThreshold = 2], no [maxArchiveSize]. *)
Definition unbounded_options : Options :=
  mkOptions (VNum 1) (VNum 2) (Function manhattan) VUndefined.

Definition unbounded_config : config := config_of manhattan unbounded_options.

(** A second generation of two observations far from the archive of the
    first. *)
Definition second_generation : archive_state :=
  run example_config
      [NoteBehavior origin (VStr "g1"); NoteBehavior far (VStr "g2"); ArchiveAndClear;
       NoteBehavior (VArr [VNum 100; VNum 0]) (VStr "g3");
       NoteBehavior (VArr [VNum 200; VNum 0]) (VStr "g4")] init.

(** The pair under other genome identifiers. *)
Definition pair_renamed : archive_state :=
  run example_config
      [NoteBehavior origin (VStr "a"); NoteBehavior far (VStr "b")] init.

(** The same behavior recorded twice in one generation. *)
Definition twins : archive_state :=
  run example_config
      [NoteBehavior far (VStr "g1"); NoteBehavior far (VStr "g2")] init.

(** ** Sorting *)

Lemma num_lt_true (a b : Q) : num_lt a b = true <-> (a < b)%Q.
Proof.
  unfold num_lt. rewrite negb_true_iff. split; intro H.
  - apply Qnot_le_lt. intro Hle. apply Qle_bool_iff in Hle. congruence.
  - destruct (Qle_bool b a) eqn:E; [|reflexivity].
    apply Qle_bool_iff in E. exfalso. exact (Qlt_not_le _ _ H E).
Qed.

Lemma num_lt_false (a b : Q) : num_lt a b = false <-> (b <= a)%Q.
Proof.
  unfold num_lt. rewrite negb_false_iff. apply Qle_bool_iff.
Qed.

Lemma sort_insert_perm (compare : Q -> Q -> Q) (x : Q) (l : list Q) :
  Permutation (sort_insert compare x l) (x :: l).
Proof.
  induction l as [|y rest IH]; simpl.
  - apply Permutation_refl.
  - destruct (num_lt 0 (compare x y)).
    + apply perm_trans with (y :: x :: rest).
      * apply perm_skip. exact IH.
      * apply perm_swap.
    + apply Permutation_refl.
Qed.

Lemma Array_sort_perm (compare : Q -> Q -> Q) (l : list Q) :
  Permutation (Array_sort compare l) l.
Proof.
  induction l as [|x rest IH]; simpl.
  - apply perm_nil.
  - apply perm_trans with (x :: Array_sort compare rest).
    + apply sort_insert_perm.
    + apply perm_skip. exact IH.
Qed.

Lemma Array_sort_length (compare : Q -> Q -> Q) (l : list Q) :
  List.length (Array_sort compare l) = List.length l.
Proof. apply Permutation_length, Array_sort_perm. Qed.

Lemma sort_insert_sorted (x : Q) (l : list Q) :
  StronglySorted Qle l -> StronglySorted Qle (sort_insert ascending x l).
Proof.
  induction 1 as [|y rest Hs IH Hall]; simpl.
  - constructor; constructor.
  - destruct (num_lt 0 (ascending x y)) eqn:E.
    + apply num_lt_true in E. unfold ascending in E.
      assert (Hyx : (y <= x)%Q).
      { apply Qlt_le_weak. apply (Qplus_lt_l _ _ (- y)%Q).
        setoid_replace (y + - y)%Q with 0%Q by ring. exact E. }
      constructor; [exact IH|].
      apply Forall_forall. intros z Hz.
      apply (Permutation_in _ (sort_insert_perm ascending x rest)) in Hz.
      destruct Hz as [<-|Hz]; [exact Hyx|].
      rewrite Forall_forall in Hall. apply Hall, Hz.
    + apply num_lt_false in E. unfold ascending in E.
      assert (Hxy : (x <= y)%Q).
      { apply (Qplus_le_l _ _ (- y)%Q).
        setoid_replace (y + - y)%Q with 0%Q by ring. exact E. }
      constructor; [constructor; assumption|].
      constructor; [exact Hxy|].
      rewrite Forall_forall in Hall. apply Forall_forall. intros z Hz.
      apply Qle_trans with y; [exact Hxy|apply Hall, Hz].
Qed.

Lemma Array_sort_sorted (l : list Q) :
  StronglySorted Qle (Array_sort ascending l).
Proof.
  induction l as [|x rest IH]; simpl.
  - constructor.
  - apply sort_insert_sorted, IH.
Qed.

Lemma sorted_prefix_smallest (l : list Q) (k : nat) :
  StronglySorted Qle l ->
  StronglySorted Qle (firstn k l)
  /\ forall x y, In x (firstn k l) -> In y (skipn k l) -> (x <= y)%Q.
Proof.
  intro Hs. revert k.
  induction Hs as [|a rest Hs IH Hall]; intro k.
  - rewrite firstn_nil, skipn_nil. split; [constructor|intros x y []].
  - destruct k as [|k]; simpl.
    + split; [constructor|intros x y []].
    + destruct (IH k) as [IH1 IH2]. rewrite Forall_forall in Hall. split.
      * constructor; [exact IH1|].
        apply Forall_forall. intros z Hz. apply Hall.
        rewrite <- (firstn_skipn k rest). apply in_or_app. left. exact Hz.
      * intros x y [<-|Hx] Hy.
        -- apply Hall. rewrite <- (firstn_skipn k rest).
           apply in_or_app. right. exact Hy.
        -- apply IH2; assumption.
Qed.

Lemma fold_left_sum (l : list Q) (x : Q) :
  (fold_left Qplus l x == x + sum l)%Q.
Proof.
  revert x. induction l as [|y rest IH]; intro x; simpl.
  - ring.
  - rewrite IH. unfold sum. ring.
Qed.

(** ** [measureSparsity] *)

Section MeasureSparsity.

Variable cfg : config.

Lemma others_length {A : Type} (i : nat) (l : list A) :
  i < List.length l -> List.length (others i l) = List.length l - 1.
Proof.
  intro H. unfold others.
  rewrite length_app, firstn_length_le, length_skipn by lia. lia.
Qed.

Lemma sibling_distances_others (behavior : value) (idx : nat) (rest : list observation) :
  forall i,
    sibling_distances cfg behavior idx i rest
    = map (fun o => measureBehaviorDistance cfg (fst o) behavior)
          (if idx <? i then rest else others (idx - i) rest).
Proof.
  induction rest as [|o rest' IH]; intro i; simpl.
  - destruct (idx <? i); [reflexivity|].
    unfold others. rewrite firstn_nil, skipn_nil. reflexivity.
  - rewrite IH. destruct (Nat.eqb_spec i idx) as [->|Hne]; simpl.
    + rewrite Nat.ltb_irrefl, Nat.sub_diag.
      replace (idx <? S idx) with true by (symmetry; apply Nat.ltb_lt; lia).
      reflexivity.
    + destruct (Nat.ltb_spec idx i) as [Hlt|Hge].
      * replace (idx <? S i) with true by (symmetry; apply Nat.ltb_lt; lia).
        reflexivity.
      * replace (idx <? S i) with false by (symmetry; apply Nat.ltb_ge; lia).
        replace (idx - i) with (S (idx - S i)) by lia.
        reflexivity.
Qed.

(** The distances that the two loops collect, with the arguments in the
    order of the calls: the other behavior first. *)
Lemma distances_of_others (st : archive_state) (behavior : value) (i : nat) :
  distances_of cfg st behavior i
  = map (fun A => measureBehaviorDistance cfg (fst A) behavior) (behaviorArchive st)
    ++ map (fun B' => measureBehaviorDistance cfg (fst B') behavior)
           (others i (recentBehaviors st)).
Proof.
  unfold distances_of. rewrite sibling_distances_others.
  simpl. rewrite Nat.sub_0_r. reflexivity.
Qed.

Lemma distances_of_candidates (st : archive_state) (behavior : value) (i : nat) :
  symmetric cfg ->
  distances_of cfg st behavior i = candidate_distances cfg st i behavior.
Proof.
  intro Hsym. rewrite distances_of_others. unfold candidate_distances.
  f_equal; apply map_ext; intro a; apply Hsym.
Qed.

Lemma distances_of_length (st : archive_state) (behavior : value) (i : nat) :
  i < List.length (recentBehaviors st) ->
  List.length (distances_of cfg st behavior i)
  = List.length (behaviorArchive st) + (List.length (recentBehaviors st) - 1).
Proof.
  intro H. rewrite distances_of_others, length_app, !length_map, others_length by exact H.
  reflexivity.
Qed.

Lemma effectiveKNearestNeighbors_min (distances : list Q) :
  effectiveKNearestNeighbors cfg distances = k_eff cfg distances.
Proof.
  unfold effectiveKNearestNeighbors, k_eff.
  destruct (Nat.ltb_spec (List.length distances)
                         (Pos.to_nat (options_kNearestNeighbors cfg))); lia.
Qed.

Lemma k_eff_positive (distances : list Q) :
  distances <> [] -> 0 < k_eff cfg distances <= List.length distances.
Proof.
  intro H. unfold k_eff. destruct distances as [|d rest]; [congruence|].
  pose proof (Pos2Nat.is_pos (options_kNearestNeighbors cfg)). simpl. lia.
Qed.

(** With a candidate, [measureSparsity] returns the mean of the nearest
    [k_eff] of the collected distances. *)
Lemma measureSparsity_nearest (st : archive_state) (i : nat) (o : observation) :
  nth_error (recentBehaviors st) i = Some o ->
  distances_of cfg st (fst o) i <> [] ->
  exists q nearest,
    measureSparsity cfg st i = Return q
    /\ k_smallest (k_eff cfg (distances_of cfg st (fst o) i))
                  (distances_of cfg st (fst o) i) nearest
    /\ (q == arithmetic_mean nearest)%Q.
Proof.
  intros Hnth Hne. unfold measureSparsity. rewrite Hnth. cbv zeta.
  rewrite effectiveKNearestNeighbors_min.
  set (ds := distances_of cfg st (fst o) i) in *.
  set (k := k_eff cfg ds).
  assert (Hk : 0 < k <= List.length ds) by (apply k_eff_positive, Hne).
  assert (Hlen : List.length (firstn k (Array_sort ascending ds)) = k).
  { rewrite firstn_length_le; [reflexivity|]. rewrite Array_sort_length. lia. }
  unfold Array_slice0.
  destruct (firstn k (Array_sort ascending ds)) as [|x rest] eqn:E.
  - simpl in Hlen. lia.
  - simpl. exists (fold_left Qplus rest x / num_of_nat k)%Q, (x :: rest).
    split; [reflexivity|]. split.
    + rewrite <- E. split; [rewrite E; exact Hlen|].
      destruct (sorted_prefix_smallest (Array_sort ascending ds) k
                  (Array_sort_sorted ds)) as [Hs Hle].
      split; [exact Hs|].
      exists (skipn k (Array_sort ascending ds)). split; [|exact Hle].
      rewrite firstn_skipn. apply Array_sort_perm.
    + unfold arithmetic_mean. rewrite Hlen, fold_left_sum. reflexivity.
Qed.

(** Without a candidate, [reduce] has nothing to start from. *)
Lemma measureSparsity_alone (st : archive_state) (i : nat) (o : observation) :
  nth_error (recentBehaviors st) i = Some o ->
  distances_of cfg st (fst o) i = [] ->
  measureSparsity cfg st i
  = Throw (TypeError "Reduce of empty array with no initial value").
Proof.
  intros Hnth He. unfold measureSparsity. rewrite Hnth. cbv zeta.
  rewrite He. unfold Array_slice0. simpl. rewrite firstn_nil. reflexivity.
Qed.

Lemma measureSparsity_returns (st : archive_state) (i : nat) :
  has_candidates st -> i < List.length (recentBehaviors st) ->
  exists q, measureSparsity cfg st i = Return q.
Proof.
  intros Hc Hi.
  destruct (nth_error (recentBehaviors st) i) as [o|] eqn:Hnth.
  - destruct (measureSparsity_nearest st i o Hnth) as (q & _ & Hq & _).
    + intro He. apply (f_equal (@List.length Q)) in He.
      rewrite distances_of_length in He by exact Hi.
      unfold has_candidates in Hc. simpl in He. lia.
    + exists q. exact Hq.
  - apply nth_error_None in Hnth. lia.
Qed.

(** [measureSparsity] reads the archive and the buffer only. *)
Lemma measureSparsity_reads (st st' : archive_state) (i : nat) :
  behaviorArchive st' = behaviorArchive st ->
  recentBehaviors st' = recentBehaviors st ->
  measureSparsity cfg st' i = measureSparsity cfg st i.
Proof.
  intros Ha Hr. unfold measureSparsity, distances_of. rewrite Ha, Hr. reflexivity.
Qed.

Lemma sparsity_values_length (st : archive_state) :
  List.length (sparsity_values cfg st) = List.length (recentBehaviors st).
Proof. unfold sparsity_values. rewrite length_map, length_seq. reflexivity. Qed.

Lemma sparsity_values_nth (st : archive_state) (i : nat) (q : Q) :
  i < List.length (recentBehaviors st) ->
  measureSparsity cfg st i = Return q ->
  nth_error (sparsity_values cfg st) i = Some q.
Proof.
  intros Hi Hq. unfold sparsity_values.
  rewrite nth_error_map, nth_error_seq.
  replace (i <? List.length (recentBehaviors st)) with true
    by (symmetry; apply Nat.ltb_lt; exact Hi).
  simpl. rewrite Hq. reflexivity.
Qed.

End MeasureSparsity.

(** ** The methods as functions of the state *)

Section MethodLemmas.

Variable cfg : config.

Lemma has_candidates_reads (st st' : archive_state) :
  behaviorArchive st' = behaviorArchive st ->
  recentBehaviors st' = recentBehaviors st ->
  has_candidates st -> has_candidates st'.
Proof. unfold has_candidates. intros -> ->. exact (fun H => H). Qed.

(** The loop of [calculateSparsities], entered with any sparsities already
    pushed. *)
Lemma calculate_loop (indices : list nat) :
  forall st,
    has_candidates st ->
    (forall i, In i indices -> i < List.length (recentBehaviors st)) ->
    for_each indices
      (fun i =>
         now <- get ;;
         sparsity <- lift (measureSparsity cfg now i) ;;
         modify (fun s => set_sparsities (sparsities s ++ [sparsity]) s)) st
    = (Return tt,
       set_sparsities
         (sparsities st
          ++ map (fun i => match measureSparsity cfg st i with
                           | Return q => q
                           | Throw _ => 0%Q
                           end) indices) st).
Proof.
  induction indices as [|i rest IH]; intros st Hc Hin.
  - simpl. unfold ret. rewrite app_nil_r. destruct st; reflexivity.
  - destruct (measureSparsity_returns cfg st i Hc (Hin i (or_introl eq_refl)))
      as [q Hq].
    cbn [for_each]. unfold bind at 1. unfold bind at 1. unfold get at 1.
    unfold bind at 1. unfold lift at 1. rewrite Hq.
    unfold modify at 1.
    rewrite IH.
    + cbn [map]. rewrite Hq. destruct st; unfold set_sparsities; simpl.
      rewrite <- app_assoc. reflexivity.
    + eapply has_candidates_reads; [| |exact Hc]; reflexivity.
    + intros j Hj. simpl. apply Hin. right. exact Hj.
Qed.

Lemma calculateSparsities_empty (st : archive_state) :
  recentBehaviors st = [] ->
  calculateSparsities cfg st
  = (Throw (AssertionError "swirlnet: error: recent behavior count must be greater than zero."), st).
Proof.
  intro H. unfold calculateSparsities, bind, get. rewrite H. reflexivity.
Qed.

Lemma calculateSparsities_returns (st : archive_state) :
  cache_coherent cfg st -> recentBehaviors st <> [] -> has_candidates st ->
  calculateSparsities cfg st
  = (Return tt, set_calculated true (set_sparsities (sparsity_values cfg st) st)).
Proof.
  intros Hcache Hne Hc.
  assert (Hpos : (0 <? List.length (recentBehaviors st)) = true).
  { apply Nat.ltb_lt. destruct (recentBehaviors st); [congruence|simpl; lia]. }
  unfold calculateSparsities. unfold bind at 1. unfold get at 1.
  rewrite Hpos. unfold bind at 1. unfold assert at 1. unfold ret at 1.
  destruct Hcache as [[Hflag Hsp]|(Hflag & _ & _ & Hsp)].
  - rewrite Hsp. simpl (List.length []). simpl (0 =? 0). simpl (true || _).
    unfold bind at 1. unfold assert at 1. unfold ret at 1.
    replace (0 =? List.length (recentBehaviors st)) with false
      by (symmetry; apply Nat.eqb_neq; apply Nat.ltb_lt in Hpos; lia).
    simpl negb. cbv iota.
    unfold bind at 1. unfold bind at 1. unfold modify at 1.
    rewrite calculate_loop.
    + unfold modify. destruct st; simpl in *. subst. reflexivity.
    + eapply has_candidates_reads; [| |exact Hc]; reflexivity.
    + intros i Hi. apply in_seq in Hi. simpl. lia.
  - assert (Hlen : (List.length (sparsities st) =? List.length (recentBehaviors st)) = true).
    { apply Nat.eqb_eq. rewrite Hsp. apply sparsity_values_length. }
    rewrite Hlen, orb_true_r. unfold bind at 1. unfold assert at 1. unfold ret at 1.
    simpl negb. cbv iota. unfold bind, ret, modify.
    rewrite <- Hsp. destruct st; simpl in *. subst. reflexivity.
Qed.

(** A buffer of one observation with an empty archive: the first
    [measureSparsity] throws, after [sparsities] was emptied. *)
Lemma calculateSparsities_alone (st : archive_state) :
  cache_coherent cfg st -> recentBehaviors st <> [] -> ~ has_candidates st ->
  calculateSparsities cfg st
  = (Throw (TypeError "Reduce of empty array with no initial value"), st).
Proof.
  intros Hcache Hne Hnc.
  destruct Hcache as [[Hflag Hsp]|(_ & _ & Hc & _)]; [|contradiction].
  unfold has_candidates in Hnc.
  destruct st as [archive recent dim sp flag]; simpl in *. subst.
  destruct recent as [|o [|o' recent]]; [congruence| |simpl in Hnc; lia].
  destruct archive as [|a archive]; [|simpl in Hnc; lia].
  unfold calculateSparsities, bind, get, assert, ret, modify, lift. simpl.
  unfold bind, get, lift.
  rewrite (measureSparsity_alone cfg _ 0 o); reflexivity.
Qed.

Lemma skipn_cons_nth {A : Type} (j : nat) :
  forall (l : list A) (x : A) (rest : list A),
    skipn j l = x :: rest -> nth_error l j = Some x /\ skipn (S j) l = rest.
Proof.
  induction j as [|j IH]; intros l x rest H.
  - simpl in H. subst. split; reflexivity.
  - destruct l as [|y l]; [discriminate|]. simpl in H.
    destruct (IH l x rest H) as [H1 H2]. split; assumption.
Qed.

(** The loop of [archiveAndClear], entered at position [j]. *)
Lemma archive_loop (recent : list observation) :
  forall (scores : list Q) (j : nat) (st : archive_state),
    skipn j (recentBehaviors st) = recent ->
    skipn j (sparsities st) = scores ->
    List.length recent = List.length scores ->
    for_each (seq j (List.length recent)) (archive_if_sparse cfg) st
    = (Return tt,
       set_behaviorArchive (behaviorArchive st ++ novel cfg scores recent) st).
Proof.
  induction recent as [|o recent IH]; intros scores j st Hr Hs Hlen.
  - simpl. unfold ret. destruct scores; [|discriminate].
    unfold novel. simpl. rewrite app_nil_r. destruct st; reflexivity.
  - destruct scores as [|s scores]; [discriminate|].
    apply skipn_cons_nth in Hr. destruct Hr as [Hr1 Hr2].
    apply skipn_cons_nth in Hs. destruct Hs as [Hs1 Hs2].
    simpl List.length. cbn [seq for_each].
    unfold bind at 1. unfold archive_if_sparse at 1.
    unfold bind at 1. unfold get at 1. rewrite Hs1, Hr1.
    unfold novel. simpl combine. simpl filter.
    destruct (num_ge s (options_archiveThreshold cfg)).
    + unfold modify at 1. rewrite (IH scores (S j)).
      * destruct st; unfold set_behaviorArchive; simpl.
        rewrite <- app_assoc. reflexivity.
      * exact Hr2.
      * exact Hs2.
      * simpl in Hlen. lia.
    + unfold ret at 1. apply (IH scores (S j)).
      * exact Hr2.
      * exact Hs2.
      * simpl in Hlen. lia.
Qed.

Lemma pruneArchive_pruned (st : archive_state) :
  pruneArchive cfg st
  = (Return tt, set_behaviorArchive (pruned cfg (behaviorArchive st)) st).
Proof.
  cbv beta iota delta [pruneArchive pruned bind getArchiveLength get ret modify
                         Array_splice0].
  destruct (max_archive_size cfg) as [m|].
  - destruct (Pos.to_nat m <? List.length (behaviorArchive st)).
    + reflexivity.
    + destruct st; reflexivity.
  - destruct st; reflexivity.
Qed.

Lemma pruned_length (archive : list observation) (m : positive) :
  max_archive_size cfg = Some m ->
  List.length (pruned cfg archive) <= Pos.to_nat m.
Proof.
  intro Hm. unfold pruned. rewrite Hm.
  destruct (Nat.ltb_spec (Pos.to_nat m) (List.length archive)).
  - rewrite length_skipn. lia.
  - lia.
Qed.

Lemma pruned_incl (archive : list observation) (o : observation) :
  In o (pruned cfg archive) -> In o archive.
Proof.
  unfold pruned. destruct (max_archive_size cfg) as [m|]; [|exact (fun H => H)].
  destruct (Pos.to_nat m <? List.length archive); [|exact (fun H => H)].
  intro H. rewrite <- (firstn_skipn (List.length archive - Pos.to_nat m) archive).
  apply in_or_app. right. exact H.
Qed.

Lemma novel_incl (scores : list Q) (recent : list observation) (o : observation) :
  In o (novel cfg scores recent) -> In o recent.
Proof.
  unfold novel. intro H. apply in_map_iff in H.
  destruct H as ([o' s] & <- & H). apply filter_In in H. destruct H as [H _].
  apply in_combine_l in H. exact H.
Qed.

(** [archiveAndClear] on a generation whose sparsities can be computed. *)
Lemma archiveAndClear_returns (st : archive_state) :
  cache_coherent cfg st -> recentBehaviors st <> [] -> has_candidates st ->
  archiveAndClear cfg st
  = (Return tt,
     mkState (pruned cfg (behaviorArchive st
                          ++ novel cfg (sparsity_values cfg st) (recentBehaviors st)))
             [] (dimensionality st) [] false).
Proof.
  intros Hcache Hne Hc. unfold archiveAndClear.
  unfold bind at 1. rewrite calculateSparsities_returns by assumption.
  unfold bind at 1. unfold get at 1. unfold bind at 1.
  rewrite (archive_loop (recentBehaviors st) (sparsity_values cfg st) 0).
  - unfold bind at 1. rewrite pruneArchive_pruned.
    unfold bind, modify. destruct st; reflexivity.
  - destruct st; reflexivity.
  - destruct st; reflexivity.
  - symmetry. apply sparsity_values_length.
Qed.

Lemma archiveAndClear_empty (st : archive_state) :
  recentBehaviors st = [] ->
  archiveAndClear cfg st
  = (Throw (AssertionError "swirlnet: error: recent behavior count must be greater than zero."), st).
Proof.
  intro H. unfold archiveAndClear. unfold bind at 1.
  rewrite calculateSparsities_empty by exact H. reflexivity.
Qed.

Lemma archiveAndClear_alone (st : archive_state) :
  cache_coherent cfg st -> recentBehaviors st <> [] -> ~ has_candidates st ->
  archiveAndClear cfg st
  = (Throw (TypeError "Reduce of empty array with no initial value"), st).
Proof.
  intros Hcache Hne Hnc. unfold archiveAndClear. unfold bind at 1.
  rewrite calculateSparsities_alone by assumption. reflexivity.
Qed.

Lemma getSparsities_returns (st : archive_state) :
  cache_coherent cfg st -> recentBehaviors st <> [] -> has_candidates st ->
  getSparsities cfg st
  = (Return (sparsity_values cfg st),
     set_calculated true (set_sparsities (sparsity_values cfg st) st)).
Proof.
  intros Hcache Hne Hc. unfold getSparsities. unfold bind at 1.
  rewrite calculateSparsities_returns by assumption. reflexivity.
Qed.

Lemma getSparsities_empty (st : archive_state) :
  recentBehaviors st = [] ->
  getSparsities cfg st
  = (Throw (AssertionError "swirlnet: error: recent behavior count must be greater than zero."), st).
Proof.
  intro H. unfold getSparsities. unfold bind at 1.
  rewrite calculateSparsities_empty by exact H. reflexivity.
Qed.

Lemma getSparsities_alone (st : archive_state) :
  cache_coherent cfg st -> recentBehaviors st <> [] -> ~ has_candidates st ->
  getSparsities cfg st
  = (Throw (TypeError "Reduce of empty array with no initial value"), st).
Proof.
  intros Hcache Hne Hnc. unfold getSparsities. unfold bind at 1.
  rewrite calculateSparsities_alone by assumption. reflexivity.
Qed.

End MethodLemmas.

(** ** [noteBehavior] *)

(** Every way [noteBehavior] can end: the archive, the cache and the guard
    are never assigned; [dimensionality] is assigned once, from the length
    of the behavior; the buffer grows only when the call returns. *)
Lemma noteBehavior_cases (behavior genome : value) (st : archive_state) :
  let st' := snd (noteBehavior behavior genome st) in
  behaviorArchive st' = behaviorArchive st
  /\ sparsities st' = sparsities st
  /\ sparsitiesCalculatedThisGeneration st' = sparsitiesCalculatedThisGeneration st
  /\ match dimensionality st with
     | Some d => dimensionality st' = Some d
     | None =>
         match get_length behavior with
         | Return len => dimensionality st' = len
         | Throw _ => dimensionality st' = None
         end
     end
  /\ match fst (noteBehavior behavior genome st) with
     | Throw _ => recentBehaviors st' = recentBehaviors st
     | Return _ =>
         recentBehaviors st' = recentBehaviors st ++ [(behavior, genome)]
         /\ sparsitiesCalculatedThisGeneration st = false
         /\ is_string genome = true
         /\ exists l, behavior = VArr l /\ dimensionality st' = Some (List.length l)
     end.
Proof.
  destruct st as [archive recent dim sp flag].
  destruct dim as [d|]; destruct behavior as [| |b|q|s|l]; destruct flag;
    destruct genome as [| |b'|q'|s'|l'];
    cbv [noteBehavior bind get modify lift assert ret throw]; simpl;
    try (repeat split; reflexivity);
    try (destruct (Nat.eqb_spec (List.length l) d) as [Heq|Hne]; simpl;
         repeat split; try reflexivity;
         eexists; split; [reflexivity|congruence]).
  all: rewrite Nat.eqb_refl; simpl; repeat split; eexists; split; reflexivity.
Qed.

Lemma noteBehavior_returns (l : list value) (g : string) (st : archive_state) :
  sparsitiesCalculatedThisGeneration st = false ->
  dimensionality st = None \/ dimensionality st = Some (List.length l) ->
  noteBehavior (VArr l) (VStr g) st
  = (Return tt,
     mkState (behaviorArchive st) (recentBehaviors st ++ [(VArr l, VStr g)])
             (Some (List.length l)) (sparsities st) false).
Proof.
  intros Hflag Hdim. destruct st as [archive recent dim sp flag]. simpl in *.
  subst flag.
  destruct Hdim as [->| ->];
    cbv [noteBehavior bind get modify lift assert ret throw]; simpl;
    rewrite Nat.eqb_refl; reflexivity.
Qed.


Lemma noteBehavior_mismatch (behavior genome : value) (st : archive_state) (d : nat) :
  dimensionality st = Some d ->
  get_length behavior <> Return (Some d) ->
  returned (fst (noteBehavior behavior genome st)) = false.
Proof.
  intros Hdim Hlen. pose proof (noteBehavior_cases behavior genome st) as H.
  cbv zeta in H. destruct H as (_ & _ & _ & Hd & H). rewrite Hdim in Hd.
  destruct (fst (noteBehavior behavior genome st)); [|reflexivity].
  destruct H as (_ & _ & _ & l & -> & Hl). simpl in Hlen. congruence.
Qed.

(** ** The invariants hold in every reachable state *)

Section Invariants.

Variable cfg : config.

Lemma cache_coherent_reads (st st' : archive_state) :
  behaviorArchive st' = behaviorArchive st ->
  recentBehaviors st' = recentBehaviors st ->
  sparsities st' = sparsities st ->
  sparsitiesCalculatedThisGeneration st' = sparsitiesCalculatedThisGeneration st ->
  cache_coherent cfg st -> cache_coherent cfg st'.
Proof.
  intros Ha Hr Hs Hf. unfold cache_coherent, has_candidates, sparsity_values.
  rewrite Ha, Hr, Hs, Hf.
  intros [H|(H1 & H2 & H3 & H4)]; [left; exact H|right].
  repeat split; try assumption. rewrite H4. apply map_ext. intro i.
  erewrite (measureSparsity_reads cfg st st'); [reflexivity | exact Ha | exact Hr].
Qed.

Lemma has_candidates_dec (st : archive_state) :
  {has_candidates st} + {~ has_candidates st}.
Proof. unfold has_candidates. apply le_dec. Qed.

Lemma noteBehavior_invariant (behavior genome : value) (st : archive_state) :
  invariant cfg st -> invariant cfg (snd (noteBehavior behavior genome st)).
Proof.
  intros (Hcache & Hbound & Hdim).
  pose proof (noteBehavior_cases behavior genome st) as H. cbv zeta in H.
  destruct H as (Ha & Hs & Hf & Hd & Hr).
  set (st' := snd (noteBehavior behavior genome st)) in *.
  assert (Hkeep : forall (o : observation) (l : list value), fst o = VArr l ->
                    dimensionality st = Some (List.length l) ->
                    dimensionality st' = Some (List.length l)).
  { intros o l _ Hl. rewrite Hl in Hd. exact Hd. }
  destruct (fst (noteBehavior behavior genome st)).
  - destruct Hr as (Hr & Hflag & _ & l & Hb & Hl). split; [|split].
    + left. split; [congruence|]. rewrite Hs.
      destruct Hcache as [[_ H]|(H & _)]; [exact H|congruence].
    + unfold within_bound in *. rewrite Ha. exact Hbound.
    + intros o Ho. rewrite Ha, Hr, app_assoc in Ho.
      apply in_app_or in Ho. destruct Ho as [Ho|[<-|[]]].
      * destruct (Hdim o Ho) as (l' & Hl1 & Hl2). exists l'. split; [exact Hl1|].
        exact (Hkeep o l' Hl1 Hl2).
      * exists l. split; [exact Hb|exact Hl].
  - split; [|split].
    + apply (cache_coherent_reads st); assumption.
    + unfold within_bound in *. rewrite Ha. exact Hbound.
    + intros o Ho. rewrite Ha, Hr in Ho.
      destruct (Hdim o Ho) as (l' & Hl1 & Hl2). exists l'. split; [exact Hl1|].
      exact (Hkeep o l' Hl1 Hl2).
Qed.

Lemma computed_invariant (st : archive_state) :
  invariant cfg st -> recentBehaviors st <> [] -> has_candidates st ->
  invariant cfg (set_calculated true (set_sparsities (sparsity_values cfg st) st)).
Proof.
  intros (Hcache & Hbound & Hdim) Hne Hc. split; [|split].
  - right. repeat split; try assumption.
  - exact Hbound.
  - exact Hdim.
Qed.

Lemma archived_invariant (st : archive_state) :
  invariant cfg st ->
  invariant cfg
    (mkState (pruned cfg (behaviorArchive st
                          ++ novel cfg (sparsity_values cfg st) (recentBehaviors st)))
             [] (dimensionality st) [] false).
Proof.
  intros (Hcache & Hbound & Hdim). split; [|split].
  - left. split; reflexivity.
  - unfold within_bound. simpl.
    destruct (max_archive_size cfg) as [m|] eqn:Hm; [|exact I].
    apply pruned_length, Hm.
  - intros o Ho. simpl in Ho. rewrite app_nil_r in Ho. simpl.
    apply pruned_incl in Ho. apply Hdim.
    apply in_app_or in Ho. apply in_or_app.
    destruct Ho as [Ho|Ho]; [left; exact Ho|right].
    apply (novel_incl cfg _ _ _ Ho).
Qed.

(** [getSparsities] and [archiveAndClear], whatever the buffer holds. *)
Lemma getSparsities_after (st : archive_state) :
  invariant cfg st ->
  (returned (fst (getSparsities cfg st)) = false /\ snd (getSparsities cfg st) = st
   /\ (recentBehaviors st = [] \/ ~ has_candidates st))
  \/ (recentBehaviors st <> [] /\ has_candidates st
      /\ getSparsities cfg st
         = (Return (sparsity_values cfg st),
            set_calculated true (set_sparsities (sparsity_values cfg st) st))).
Proof.
  intros (Hcache & _).
  destruct (recentBehaviors st) as [|o recent] eqn:Hr.
  - left. rewrite getSparsities_empty by exact Hr. simpl. auto.
  - assert (Hne : recentBehaviors st <> []) by (rewrite Hr; discriminate).
    destruct (has_candidates_dec st) as [Hc|Hnc].
    + right. rewrite getSparsities_returns by assumption.
      repeat split; try assumption; discriminate.
    + left. rewrite getSparsities_alone by assumption. simpl. auto.
Qed.

Lemma archiveAndClear_after (st : archive_state) :
  invariant cfg st ->
  (returned (fst (archiveAndClear cfg st)) = false /\ snd (archiveAndClear cfg st) = st
   /\ (recentBehaviors st = [] \/ ~ has_candidates st))
  \/ (recentBehaviors st <> [] /\ has_candidates st
      /\ archiveAndClear cfg st
         = (Return tt,
            mkState (pruned cfg (behaviorArchive st
                                 ++ novel cfg (sparsity_values cfg st)
                                      (recentBehaviors st)))
                    [] (dimensionality st) [] false)).
Proof.
  intros (Hcache & _).
  destruct (recentBehaviors st) as [|o recent] eqn:Hr.
  - left. rewrite archiveAndClear_empty by exact Hr. simpl. auto.
  - assert (Hne : recentBehaviors st <> []) by (rewrite Hr; discriminate).
    destruct (has_candidates_dec st) as [Hc|Hnc].
    + right. rewrite archiveAndClear_returns by assumption. rewrite Hr.
      repeat split; try assumption; discriminate.
    + left. rewrite archiveAndClear_alone by assumption. simpl. auto.
Qed.

Lemma after_invariant (c : call) (st : archive_state) :
  invariant cfg st -> invariant cfg (after cfg c st).
Proof.
  intro Hinv. destruct c as [behavior genome| | | |]; simpl.
  - apply noteBehavior_invariant, Hinv.
  - destruct (getSparsities_after st Hinv) as [(_ & -> & _)|(Hne & Hc & ->)].
    + exact Hinv.
    + apply computed_invariant; assumption.
  - destruct (archiveAndClear_after st Hinv) as [(_ & -> & _)|(Hne & Hc & ->)].
    + exact Hinv.
    + apply archived_invariant, Hinv.
  - exact Hinv.
  - exact Hinv.
Qed.

Lemma run_invariant (calls : list call) :
  forall st, invariant cfg st -> invariant cfg (run cfg calls st).
Proof.
  induction calls as [|c calls IH]; intros st Hinv; simpl.
  - exact Hinv.
  - apply IH, after_invariant, Hinv.
Qed.

Lemma init_invariant : invariant cfg init.
Proof.
  split; [|split].
  - left. split; reflexivity.
  - unfold within_bound. simpl. destruct (max_archive_size cfg); [lia|exact I].
  - intros o [].
Qed.

Lemma reachable_invariant (st : archive_state) :
  reachable cfg st -> invariant cfg st.
Proof.
  intros [calls ->]. apply run_invariant, init_invariant.
Qed.

Lemma reachable_after (c : call) (st : archive_state) :
  reachable cfg st -> reachable cfg (after cfg c st).
Proof.
  intros [calls ->]. exists (calls ++ [c]).
  unfold run. rewrite fold_left_app. reflexivity.
Qed.

Lemma reachable_run (calls : list call) (st : archive_state) :
  reachable cfg st -> reachable cfg (run cfg calls st).
Proof.
  intros [calls0 ->]. exists (calls0 ++ calls).
  unfold run. rewrite fold_left_app. reflexivity.
Qed.

Lemma after_dimensionality (c : call) (st : archive_state) (d : nat) :
  invariant cfg st -> dimensionality st = Some d ->
  dimensionality (after cfg c st) = Some d.
Proof.
  intros Hinv Hd. destruct c as [behavior genome| | | |]; simpl.
  - pose proof (noteBehavior_cases behavior genome st) as H. cbv zeta in H.
    destruct H as (_ & _ & _ & H & _). rewrite Hd in H. exact H.
  - destruct (getSparsities_after st Hinv) as [(_ & -> & _)|(_ & _ & ->)];
      exact Hd.
  - destruct (archiveAndClear_after st Hinv) as [(_ & -> & _)|(_ & _ & ->)];
      exact Hd.
  - exact Hd.
  - exact Hd.
Qed.

Lemma run_dimensionality (calls : list call) (d : nat) :
  forall st, invariant cfg st -> dimensionality st = Some d ->
    dimensionality (run cfg calls st) = Some d.
Proof.
  induction calls as [|c calls IH]; intros st Hinv Hd; simpl.
  - exact Hd.
  - apply IH; [apply after_invariant, Hinv|apply after_dimensionality; assumption].
Qed.

(** Before the first [noteBehavior], every call throws and assigns
    nothing. *)
Lemma run_before_first_record (calls : list call) :
  first_record calls = None -> run cfg calls init = init.
Proof.
  induction calls as [|c calls IH]; intro H; simpl.
  - reflexivity.
  - change (run cfg calls (after cfg c init) = init).
    destruct c; simpl in H; try discriminate; unfold after.
    + rewrite getSparsities_empty by reflexivity. apply IH, H.
    + rewrite archiveAndClear_empty by reflexivity. apply IH, H.
    + apply IH, H.
    + apply IH, H.
Qed.

End Invariants.

(** ** The nearest [k] candidates have one mean *)

Lemma StronglySorted_app (l1 l2 : list Q) :
  StronglySorted Qle l1 -> StronglySorted Qle l2 ->
  (forall x y, In x l1 -> In y l2 -> (x <= y)%Q) ->
  StronglySorted Qle (l1 ++ l2).
Proof.
  intros H1 H2 H. induction H1 as [|a l1 H1 IH Hall]; simpl.
  - exact H2.
  - constructor.
    + apply IH. intros x y Hx Hy. apply H; [right; exact Hx|exact Hy].
    + apply Forall_app. split; [exact Hall|].
      apply Forall_forall. intros y Hy. apply H; [left; reflexivity|exact Hy].
Qed.

Lemma sorted_head_least (a b : Q) (l1 l2 : list Q) :
  StronglySorted Qle (b :: l2) ->
  In (Qred a) (map Qred (b :: l2)) -> (b <= a)%Q.
Proof.
  intros Hs Hin. apply in_map_iff in Hin. destruct Hin as (y & Hy & Hin).
  assert (Hya : (y == a)%Q).
  { rewrite <- (Qred_correct y), <- (Qred_correct a), Hy. reflexivity. }
  rewrite <- Hya. destruct Hin as [<-|Hin]; [apply Qle_refl|].
  apply StronglySorted_inv in Hs. destruct Hs as [_ Hall].
  rewrite Forall_forall in Hall. apply Hall, Hin.
Qed.

(** Two ascending arrangements of the same numbers agree position by
    position, as reduced fractions. *)
Lemma sorted_permutation_unique (l1 : list Q) :
  forall l2,
    StronglySorted Qle l1 -> StronglySorted Qle l2 ->
    Permutation (map Qred l1) (map Qred l2) ->
    map Qred l1 = map Qred l2.
Proof.
  induction l1 as [|a l1 IH]; intros l2 H1 H2 Hp.
  - apply Permutation_nil in Hp. symmetry. exact Hp.
  - destruct l2 as [|b l2].
    + apply Permutation_sym, Permutation_nil in Hp. discriminate.
    + assert (Hba : (b <= a)%Q).
      { apply (sorted_head_least a b l1 l2 H2).
        apply (Permutation_in _ Hp). left. reflexivity. }
      assert (Hab : (a <= b)%Q).
      { apply (sorted_head_least b a l2 l1 H1).
        apply (Permutation_in _ (Permutation_sym Hp)). left. reflexivity. }
      assert (Heq : Qred a = Qred b).
      { apply Qred_complete, Qle_antisym; assumption. }
      simpl in *. rewrite Heq in *. f_equal.
      apply StronglySorted_inv in H1. apply StronglySorted_inv in H2.
      apply IH; [apply H1|apply H2|].
      apply Permutation_cons_inv in Hp. exact Hp.
Qed.

Lemma sum_reduced (l : list Q) : (sum (map Qred l) == sum l)%Q.
Proof.
  induction l as [|x l IH]; simpl.
  - reflexivity.
  - rewrite IH, Qred_correct. reflexivity.
Qed.

Lemma k_smallest_one_sum (k : nat) (candidates n1 n2 : list Q) :
  k_smallest k candidates n1 -> k_smallest k candidates n2 ->
  (sum n1 == sum n2)%Q.
Proof.
  intros (Hl1 & Hs1 & f1 & Hp1 & Hle1) (Hl2 & Hs2 & f2 & Hp2 & Hle2).
  assert (Hsorted : forall n f,
             StronglySorted Qle n ->
             (forall x y, In x n -> In y f -> (x <= y)%Q) ->
             StronglySorted Qle (n ++ Array_sort ascending f)).
  { intros n f Hs Hle. apply StronglySorted_app.
    - exact Hs.
    - apply Array_sort_sorted.
    - intros x y Hx Hy. apply Hle; [exact Hx|].
      apply (Permutation_in _ (Array_sort_perm ascending f)). exact Hy. }
  assert (Hperm : forall n f,
             Permutation (n ++ f) candidates ->
             Permutation (n ++ Array_sort ascending f) candidates).
  { intros n f Hp. apply perm_trans with (n ++ f); [|exact Hp].
    apply Permutation_app_head, Array_sort_perm. }
  assert (Heq : map Qred (n1 ++ Array_sort ascending f1)
                = map Qred (n2 ++ Array_sort ascending f2)).
  { apply sorted_permutation_unique.
    - apply Hsorted; assumption.
    - apply Hsorted; assumption.
    - apply Permutation_map.
      apply perm_trans with candidates; [apply Hperm, Hp1|].
      apply Permutation_sym, Hperm, Hp2. }
  rewrite !map_app in Heq.
  apply (f_equal (firstn k)) in Heq.
  rewrite !firstn_app in Heq.
  rewrite !length_map, Hl1, Hl2, Nat.sub_diag in Heq. simpl in Heq.
  rewrite !app_nil_r in Heq.
  rewrite <- Hl1 in Heq at 1. rewrite <- (length_map Qred n1) in Heq.
  rewrite firstn_all in Heq.
  rewrite <- Hl2 in Heq. rewrite <- (length_map Qred n2) in Heq.
  rewrite firstn_all in Heq.
  rewrite <- (sum_reduced n1), <- (sum_reduced n2), Heq. reflexivity.
Qed.

Lemma k_smallest_one_mean (k : nat) (candidates n1 n2 : list Q) :
  k_smallest k candidates n1 -> k_smallest k candidates n2 ->
  (arithmetic_mean n1 == arithmetic_mean n2)%Q.
Proof.
  intros H1 H2. unfold arithmetic_mean.
  rewrite (k_smallest_one_sum k candidates n1 n2 H1 H2).
  destruct H1 as [-> _]. destruct H2 as [<- _]. reflexivity.
Qed.

Lemma manhattan_list_symmetric (a : list value) :
  forall b, manhattan_list a b = manhattan_list b a.
Proof.
  induction a as [|x a IH]; intro b.
  - destruct b as [|[| | |y| |] b]; reflexivity.
  - destruct b as [|y b].
    + destruct x; reflexivity.
    + destruct x as [| | |p| |], y as [| | |q| |]; try reflexivity.
      simpl. rewrite (IH b). f_equal.
      destruct p as [pn pd], q as [qn qd]. unfold Qminus, Qplus, Qopp, Qabs. simpl.
      rewrite (Pos.mul_comm pd qd). f_equal.
      rewrite <- Z.abs_opp. f_equal. ring.
Qed.

Lemma manhattan_symmetric : symmetric example_config.
Proof.
  intros x y. simpl. destruct x, y; try reflexivity.
  apply manhattan_list_symmetric.
Qed.

(** ** Properties of the specification *)

(** C1.  For the observation [B] recorded at position [i] of a reachable
    state, with a symmetric distance function and at least one candidate
    distance, [getSparsities] returns a sequence whose entry [i] is the
    arithmetic mean of the [k_eff] smallest candidate distances in ascending
    order, where the candidates are the distances from [B] to every archived
    entry and to every other observation of the buffer and
    [k_eff = min(kNearestNeighbors, number of candidates)]. *)
Theorem sparsity_is_mean_of_nearest
        (cfg : config) (st : archive_state) (i : nat) (B genome : value) :
  symmetric cfg ->
  reachable cfg st ->
  nth_error (recentBehaviors st) i = Some (B, genome) ->
  candidate_distances cfg st i B <> [] ->
  exists scores q,
    fst (getSparsities cfg st) = Return scores
    /\ List.length scores = List.length (recentBehaviors st)
    /\ nth_error scores i = Some q
    /\ (exists nearest,
          k_smallest (k_eff cfg (candidate_distances cfg st i B))
                     (candidate_distances cfg st i B) nearest)
    /\ (forall nearest,
          k_smallest (k_eff cfg (candidate_distances cfg st i B))
                     (candidate_distances cfg st i B) nearest ->
          (q == arithmetic_mean nearest)%Q).
Proof.
  intros Hsym Hreach Hnth Hne.
  destruct (reachable_invariant cfg st Hreach) as (Hcache & _).
  assert (Hi : i < List.length (recentBehaviors st)).
  { apply nth_error_Some. rewrite Hnth. discriminate. }
  assert (Hds : distances_of cfg st B i = candidate_distances cfg st i B)
    by (apply distances_of_candidates, Hsym).
  assert (Hc : has_candidates st).
  { unfold has_candidates.
    destruct (candidate_distances cfg st i B) as [|d ds] eqn:E; [congruence|].
    apply (f_equal (@List.length Q)) in Hds.
    rewrite distances_of_length in Hds by exact Hi. simpl in Hds. lia. }
  assert (Hrecent : recentBehaviors st <> []).
  { intro He. rewrite He in Hi. simpl in Hi. lia. }
  destruct (measureSparsity_nearest cfg st i (B, genome) Hnth)
    as (q & nearest & Hq & Hk & Hmean).
  { simpl. rewrite Hds. exact Hne. }
  simpl fst in Hk. rewrite Hds in Hk.
  exists (sparsity_values cfg st), q.
  rewrite getSparsities_returns by assumption. simpl.
  split; [reflexivity|]. split; [apply sparsity_values_length|].
  split; [apply sparsity_values_nth; assumption|].
  split; [exists nearest; exact Hk|].
  intros nearest' Hk'. rewrite Hmean.
  apply (k_smallest_one_mean _ _ _ _ Hk Hk').
Qed.

Lemma sparsity_is_mean_of_nearest_witness :
  exists scores q,
    fst (getSparsities example_config pair) = Return scores
    /\ List.length scores = List.length (recentBehaviors pair)
    /\ nth_error scores 0 = Some q
    /\ (exists nearest,
          k_smallest (k_eff example_config (candidate_distances example_config pair 0 origin))
                     (candidate_distances example_config pair 0 origin) nearest)
    /\ (forall nearest,
          k_smallest (k_eff example_config (candidate_distances example_config pair 0 origin))
                     (candidate_distances example_config pair 0 origin) nearest ->
          (q == arithmetic_mean nearest)%Q).
Proof.
  apply (sparsity_is_mean_of_nearest example_config pair 0 origin (VStr "g1")).
  - exact manhattan_symmetric.
  - exists [NoteBehavior origin (VStr "g1"); NoteBehavior far (VStr "g2")].
    reflexivity.
  - reflexivity.
  - vm_compute. discriminate.
Defined.

(** C2, as the code has it.  For every reachable state whose buffer is not
    empty and in which every observation has a candidate distance (the
    archive is not empty or the buffer holds two observations or more),
    [archiveAndClear] returns; the archive is then the previous archive,
    extended by exactly the buffered observations whose sparsity (as
    [getSparsities] returns it) is at least [archiveThreshold], in recording
    order, and pruned from the front; the buffer, the cached sparsities and
    the guard are cleared. *)
Theorem finalize_archives_novel (cfg : config) (st : archive_state) :
  reachable cfg st ->
  recentBehaviors st <> [] ->
  has_candidates st ->
  fst (getSparsities cfg st) = Return (sparsity_values cfg st)
  /\ finalized cfg st.
Proof.
  intros Hreach Hne Hc.
  destruct (reachable_invariant cfg st Hreach) as (Hcache & _).
  split.
  - rewrite getSparsities_returns by assumption. reflexivity.
  - unfold finalized. rewrite archiveAndClear_returns by assumption.
    eexists. split; [reflexivity|]. simpl. repeat split.
Qed.

Lemma finalize_archives_novel_witness :
  fst (getSparsities example_config pair) = Return (sparsity_values example_config pair)
  /\ finalized example_config pair.
Proof.
  apply (finalize_archives_novel example_config pair).
  - exists [NoteBehavior origin (VStr "g1"); NoteBehavior far (VStr "g2")].
    reflexivity.
  - vm_compute. discriminate.
  - unfold has_candidates. simpl. lia.
Defined.

(** C2 as stated fails: a buffer with one observation and an empty archive
    is not empty, and [archiveAndClear] throws there and clears nothing. *)
Lemma finalize_single_first_observation_throws :
  reachable example_config alone
  /\ recentBehaviors alone <> []
  /\ archiveAndClear example_config alone
     = (Throw (TypeError "Reduce of empty array with no initial value"), alone)
  /\ ~ finalized example_config alone.
Proof.
  split; [exists [NoteBehavior origin (VStr "g1")]; reflexivity|].
  split; [vm_compute; discriminate|].
  assert (H : archiveAndClear example_config alone
              = (Throw (TypeError "Reduce of empty array with no initial value"), alone))
    by (vm_compute; reflexivity).
  split; [exact H|].
  intros (st' & Hret & _). rewrite H in Hret. discriminate.
Qed.

(** C3.  With a configured [maxArchiveSize], the archive of every reachable
    state (after a return or a throw) holds at most that many entries; only
    [archiveAndClear] changes the archive, by appending and then pruning;
    and [pruneArchive] removes exactly [length - maxArchiveSize] entries
    from the front when the length exceeds the maximum, and none
    otherwise. *)
Theorem archive_within_maximum (cfg : config) (m : positive) (st : archive_state) :
  max_archive_size cfg = Some m ->
  reachable cfg st ->
  List.length (behaviorArchive st) <= Pos.to_nat m
  /\ (forall c, c <> ArchiveAndClear ->
        behaviorArchive (after cfg c st) = behaviorArchive st)
  /\ (exists appended,
        behaviorArchive (after cfg ArchiveAndClear st)
        = pruned cfg (behaviorArchive st ++ appended))
  /\ (forall s,
        fst (pruneArchive cfg s) = Return tt
        /\ behaviorArchive (snd (pruneArchive cfg s))
           = skipn (List.length (behaviorArchive s) - Pos.to_nat m) (behaviorArchive s)
        /\ List.length (behaviorArchive (snd (pruneArchive cfg s)))
           = Nat.min (List.length (behaviorArchive s)) (Pos.to_nat m)).
Proof.
  intros Hm Hreach.
  pose proof (reachable_invariant cfg st Hreach) as Hinv.
  assert (Hbound : List.length (behaviorArchive st) <= Pos.to_nat m).
  { destruct Hinv as (_ & Hb & _). unfold within_bound in Hb.
    rewrite Hm in Hb. exact Hb. }
  split; [exact Hbound|]. split; [|split].
  - intros c Hc. destruct c as [behavior genome| | | |]; simpl.
    + pose proof (noteBehavior_cases behavior genome st) as H. cbv zeta in H.
      apply H.
    + destruct (getSparsities_after cfg st Hinv) as [(_ & -> & _)|(_ & _ & ->)];
        reflexivity.
    + congruence.
    + reflexivity.
    + reflexivity.
  - simpl. destruct (archiveAndClear_after cfg st Hinv)
      as [(_ & -> & _)|(_ & _ & ->)].
    + exists []. rewrite app_nil_r. unfold pruned. rewrite Hm.
      replace (Pos.to_nat m <? List.length (behaviorArchive st)) with false
        by (symmetry; apply Nat.ltb_ge; exact Hbound).
      reflexivity.
    + eexists. reflexivity.
  - intro s. rewrite pruneArchive_pruned. simpl.
    split; [reflexivity|]. unfold pruned. rewrite Hm.
    destruct (Nat.ltb_spec (Pos.to_nat m) (List.length (behaviorArchive s))).
    + split; [reflexivity|]. rewrite length_skipn. lia.
    + replace (List.length (behaviorArchive s) - Pos.to_nat m) with 0 by lia.
      split; [reflexivity|]. lia.
Qed.

Lemma archive_within_maximum_witness :
  List.length (behaviorArchive pair) <= Pos.to_nat 2
  /\ (forall c, c <> ArchiveAndClear ->
        behaviorArchive (after example_config c pair) = behaviorArchive pair)
  /\ (exists appended,
        behaviorArchive (after example_config ArchiveAndClear pair)
        = pruned example_config (behaviorArchive pair ++ appended))
  /\ (forall s,
        fst (pruneArchive example_config s) = Return tt
        /\ behaviorArchive (snd (pruneArchive example_config s))
           = skipn (List.length (behaviorArchive s) - Pos.to_nat 2) (behaviorArchive s)
        /\ List.length (behaviorArchive (snd (pruneArchive example_config s)))
           = Nat.min (List.length (behaviorArchive s)) (Pos.to_nat 2)).
Proof.
  apply (archive_within_maximum example_config 2 pair).
  - reflexivity.
  - exists [NoteBehavior origin (VStr "g1"); NoteBehavior far (VStr "g2")].
    reflexivity.
Defined.



(** C5, as the code has it.  In a reachable state whose buffer is not empty
    and in which every observation has a candidate distance,
    [getSparsities] returns a sequence, and a second call right after it
    returns the same sequence: the cached one, as long as the buffer,
    without evaluating the distance function. *)
Theorem second_computation_reads_cache (cfg : config) (st : archive_state) :
  reachable cfg st ->
  recentBehaviors st <> [] ->
  has_candidates st ->
  cache_stable cfg st.
Proof.
  intros Hreach Hne Hc.
  pose proof (reachable_invariant cfg st Hreach) as Hinv.
  destruct Hinv as (Hcache & Hrest).
  set (st1 := set_calculated true (set_sparsities (sparsity_values cfg st) st)).
  assert (Hagain : forall cfg', getSparsities cfg' st1 = (Return (sparsity_values cfg st), st1)).
  { intro cfg'. unfold getSparsities, calculateSparsities.
    cbv beta iota delta [bind get assert ret modify].
    assert (Hpos : (0 <? List.length (recentBehaviors st1)) = true).
    { apply Nat.ltb_lt. subst st1. simpl.
      destruct (recentBehaviors st); [congruence|simpl; lia]. }
    assert (Hlen : (List.length (sparsities st1) =? List.length (recentBehaviors st1)) = true).
    { apply Nat.eqb_eq. subst st1. simpl. apply sparsity_values_length. }
    rewrite Hpos, Hlen, orb_true_r. simpl. reflexivity. }
  exists (sparsity_values cfg st), st1.
  split; [apply getSparsities_returns; assumption|].
  split; [apply Hagain|]. split; [reflexivity|].
  split; [exact (sparsity_values_length cfg st)|exact Hagain].
Qed.

Lemma second_computation_reads_cache_witness :
  cache_stable example_config pair.
Proof.
  apply (second_computation_reads_cache example_config pair).
  - exists [NoteBehavior origin (VStr "g1"); NoteBehavior far (VStr "g2")].
    reflexivity.
  - vm_compute. discriminate.
  - unfold has_candidates. simpl. lia.
Defined.

(** C5 as stated fails: on the buffer of one observation with an empty
    archive, which is not empty, neither call returns a sequence, and the
    second call finds no cache to read. *)
Lemma single_first_observation_is_not_cached :
  reachable example_config alone
  /\ recentBehaviors alone <> []
  /\ returned (fst (getSparsities example_config alone)) = false
  /\ sparsities (snd (getSparsities example_config alone)) = []
  /\ returned (fst (getSparsities example_config (snd (getSparsities example_config alone))))
     = false
  /\ ~ cache_stable example_config alone.
Proof.
  split; [exists [NoteBehavior origin (VStr "g1")]; reflexivity|].
  split; [vm_compute; discriminate|].
  split; [vm_compute; reflexivity|].
  split; [vm_compute; reflexivity|].
  split; [vm_compute; reflexivity|].
  intros (scores & st1 & Hret & _).
  assert (H : fst (getSparsities example_config alone)
              = Throw (TypeError "Reduce of empty array with no initial value"))
    by (vm_compute; reflexivity).
  rewrite Hret in H. discriminate.
Qed.

(** C6.  When the first [noteBehavior] of a trace has a behavior of length
    [n], the dimensionality is [n] from then on: every later [noteBehavior]
    whose behavior has another length, or none, throws, and every behavior
    stored in the buffer or in the archive is an array of length [n]. *)
Theorem dimensionality_fixed_by_first_record
        (cfg : config) (before later : list call) (behavior genome : value) (n : nat) :
  first_record before = None ->
  get_length behavior = Return (Some n) ->
  let st := run cfg (before ++ NoteBehavior behavior genome :: later) init in
  dimensionality st = Some n
  /\ (forall behavior' genome',
        get_length behavior' <> Return (Some n) ->
        returned (fst (noteBehavior behavior' genome' st)) = false)
  /\ (forall o, In o (behaviorArchive st ++ recentBehaviors st) ->
        exists l, fst o = VArr l /\ List.length l = n).
Proof.
  intros Hbefore Hlen st.
  assert (Hst : st = run cfg later (snd (noteBehavior behavior genome init))).
  { subst st. unfold run. rewrite fold_left_app. simpl.
    fold (run cfg before init). rewrite run_before_first_record by exact Hbefore.
    reflexivity. }
  set (st1 := snd (noteBehavior behavior genome init)) in *.
  assert (Hinv1 : invariant cfg st1).
  { apply noteBehavior_invariant, init_invariant. }
  assert (Hd1 : dimensionality st1 = Some n).
  { pose proof (noteBehavior_cases behavior genome init) as H. cbv zeta in H.
    destruct H as (_ & _ & _ & H & _). simpl in H. rewrite Hlen in H. exact H. }
  assert (Hd : dimensionality st = Some n).
  { rewrite Hst. apply run_dimensionality; assumption. }
  assert (Hinv : invariant cfg st).
  { rewrite Hst. apply run_invariant, Hinv1. }
  split; [exact Hd|]. split.
  - intros behavior' genome' Hne.
    apply (noteBehavior_mismatch behavior' genome' st n Hd Hne).
  - intros o Ho. destruct Hinv as (_ & _ & Hdim).
    destruct (Hdim o Ho) as (l & Hl & Hdl). exists l. split; [exact Hl|].
    congruence.
Qed.

Lemma dimensionality_fixed_by_first_record_witness :
  let st := run example_config
                ([GetArchiveLength] ++ NoteBehavior origin (VStr "g1")
                   :: [NoteBehavior far (VStr "g2"); ArchiveAndClear]) init in
  dimensionality st = Some 2
  /\ (forall behavior' genome',
        get_length behavior' <> Return (Some 2) ->
        returned (fst (noteBehavior behavior' genome' st)) = false)
  /\ (forall o, In o (behaviorArchive st ++ recentBehaviors st) ->
        exists l, fst o = VArr l /\ List.length l = 2).
Proof.
  apply (dimensionality_fixed_by_first_record
           example_config [GetArchiveLength]
           [NoteBehavior far (VStr "g2"); ArchiveAndClear] origin (VStr "g1") 2).
  - reflexivity.
  - reflexivity.
Defined.

(** C7, as the code has it.  [makeArchive] returns a new object for every
    options object whose [kNearestNeighbors] and [archiveThreshold] are
    integers greater than zero, whose [behaviorDistanceFunction] is a
    function or absent and whose [maxArchiveSize] is an integer greater than
    zero or absent. *)
Theorem construction_accepts_valid_options
        (defaultBehaviorDistanceFunction : value -> value -> Q) (o : Options) :
  valid o ->
  makeArchive defaultBehaviorDistanceFunction (Object o)
  = Return (config_of defaultBehaviorDistanceFunction o, init).
Proof.
  intros ((Hk1 & Hk2) & (Ht1 & Ht2) & Hf & Hm).
  unfold makeArchive, check_options.
  cbv beta iota delta [bind assert ret throw].
  rewrite Hk1, Hk2, Ht1, Ht2. simpl.
  assert (Hfb : match behaviorDistanceFunction o with
                | Function _ => true
                | Other v => is_undefined v
                end = true).
  { unfold function_or_absent in Hf.
    destruct (behaviorDistanceFunction o); [reflexivity|subst; reflexivity]. }
  rewrite Hfb.
  assert (Hmb : (isInt (maxArchiveSize o) && greater_than_zero (maxArchiveSize o)
                 || is_undefined (maxArchiveSize o)) = true).
  { destruct Hm as [(Hm1 & Hm2)| ->]; [rewrite Hm1, Hm2|]; reflexivity. }
  rewrite Hmb. reflexivity.
Qed.

Lemma construction_accepts_valid_options_witness :
  makeArchive manhattan (Object example_options)
  = Return (config_of manhattan example_options, init).
Proof.
  apply (construction_accepts_valid_options manhattan example_options).
  unfold valid, positive_integer, positive_integer_or_absent, function_or_absent.
  simpl. repeat split; left; split; reflexivity.
Defined.

(** C7 as stated fails: [archiveThreshold = 2.5] is a number greater than
    zero with every other option valid, and [makeArchive] throws. *)
Lemma construction_rejects_fractional_threshold :
  valid_as_specified fractional_threshold_options
  /\ makeArchive manhattan (Object fractional_threshold_options)
     = Throw (AssertionError "swirlnet: error: archiveThreshold must be an integer greater than zero.").
Proof.
  split.
  - unfold valid_as_specified, positive_integer, positive_integer_or_absent,
      function_or_absent. simpl.
    split; [split; reflexivity|].
    split; [exists (5 # 2)%Q; split; reflexivity|].
    split; [reflexivity|right; reflexivity].
  - reflexivity.
Qed.

(** C8.  With an empty buffer, [getSparsities] and [archiveAndClear] both
    throw, and leave the archive and every other variable as they were. *)
Theorem empty_generation_throws (cfg : config) (st : archive_state) :
  recentBehaviors st = [] ->
  returned (fst (getSparsities cfg st)) = false
  /\ snd (getSparsities cfg st) = st
  /\ returned (fst (archiveAndClear cfg st)) = false
  /\ snd (archiveAndClear cfg st) = st.
Proof.
  intro H. rewrite getSparsities_empty, archiveAndClear_empty by exact H.
  repeat split.
Qed.

Lemma empty_generation_throws_witness :
  returned (fst (getSparsities example_config init)) = false
  /\ snd (getSparsities example_config init) = init
  /\ returned (fst (archiveAndClear example_config init)) = false
  /\ snd (archiveAndClear example_config init) = init.
Proof.
  apply (empty_generation_throws example_config init). reflexivity.
Defined.

(** C9.  In a reachable state with an empty archive and one observation in
    the buffer, that observation has no candidate distance, and
    [getSparsities] throws instead of returning a sequence. *)
Theorem first_observation_has_no_sparsity
        (cfg : config) (st : archive_state) (o : observation) :
  reachable cfg st ->
  behaviorArchive st = [] ->
  recentBehaviors st = [o] ->
  candidate_distances cfg st 0 (fst o) = []
  /\ measureSparsity cfg st 0
     = Throw (TypeError "Reduce of empty array with no initial value")
  /\ getSparsities cfg st
     = (Throw (TypeError "Reduce of empty array with no initial value"), st).
Proof.
  intros Hreach Ha Hr.
  destruct (reachable_invariant cfg st Hreach) as (Hcache & _).
  split; [|split].
  - unfold candidate_distances, others. rewrite Ha, Hr. reflexivity.
  - apply (measureSparsity_alone cfg st 0 o).
    + rewrite Hr. reflexivity.
    + unfold distances_of. rewrite Ha, Hr. simpl. reflexivity.
  - apply getSparsities_alone.
    + exact Hcache.
    + rewrite Hr. discriminate.
    + unfold has_candidates. rewrite Ha, Hr. simpl. lia.
Qed.

Lemma first_observation_has_no_sparsity_witness :
  candidate_distances example_config alone 0 (fst (origin, VStr "g1")) = []
  /\ measureSparsity example_config alone 0
     = Throw (TypeError "Reduce of empty array with no initial value")
  /\ getSparsities example_config alone
     = (Throw (TypeError "Reduce of empty array with no initial value"), alone).
Proof.
  apply (first_observation_has_no_sparsity example_config alone (origin, VStr "g1")).
  - exists [NoteBehavior origin (VStr "g1")]. reflexivity.
  - reflexivity.
  - reflexivity.
Defined.

(** C10, as the code has it.  A [noteBehavior] that throws leaves the
    buffer, the archive, the cached sparsities and the guard as they were.
    While no dimensionality is established, a [noteBehavior] whose behavior
    has a length (an array or a string) establishes it before any
    assertion, so that it stays established through every later call even
    if this one throws; a [noteBehavior] whose behavior has no length (a
    number or a boolean) throws and leaves the dimensionality
    unestablished. *)
Theorem failed_record_keeps_buffers
        (cfg : config) (st : archive_state) (behavior genome : value) :
  reachable cfg st ->
  (returned (fst (noteBehavior behavior genome st)) = false ->
   recentBehaviors (snd (noteBehavior behavior genome st)) = recentBehaviors st
   /\ behaviorArchive (snd (noteBehavior behavior genome st)) = behaviorArchive st
   /\ sparsities (snd (noteBehavior behavior genome st)) = sparsities st
   /\ sparsitiesCalculatedThisGeneration (snd (noteBehavior behavior genome st))
      = sparsitiesCalculatedThisGeneration st)
  /\ (forall n,
        dimensionality st = None ->
        get_length behavior = Return (Some n) ->
        forall later,
          dimensionality (run cfg later (snd (noteBehavior behavior genome st)))
          = Some n)
  /\ (dimensionality st = None ->
      get_length behavior = Return None ->
      returned (fst (noteBehavior behavior genome st)) = false
      /\ dimensionality (snd (noteBehavior behavior genome st)) = None).
Proof.
  intro Hreach.
  pose proof (noteBehavior_cases behavior genome st) as H. cbv zeta in H.
  destruct H as (Ha & Hs & Hf & Hd & Hr). split; [|split].
  - intro Hthrow.
    destruct (fst (noteBehavior behavior genome st)); [discriminate|].
    repeat split; assumption.
  - intros n Hnone Hlen later. rewrite Hnone, Hlen in Hd.
    apply run_dimensionality; [|exact Hd].
    apply noteBehavior_invariant, reachable_invariant, Hreach.
  - intros Hnone Hlen. rewrite Hnone, Hlen in Hd. split; [|exact Hd].
    destruct (fst (noteBehavior behavior genome st)); [|reflexivity].
    destruct Hr as (_ & _ & _ & l & Hb & _). subst behavior.
    simpl in Hlen. discriminate.
Qed.

Lemma failed_record_keeps_buffers_witness :
  (returned (fst (noteBehavior (VArr [VNum 1; VNum 2; VNum 3]) (VNum 7) init)) = false ->
   recentBehaviors (snd (noteBehavior (VArr [VNum 1; VNum 2; VNum 3]) (VNum 7) init))
   = recentBehaviors init
   /\ behaviorArchive (snd (noteBehavior (VArr [VNum 1; VNum 2; VNum 3]) (VNum 7) init))
      = behaviorArchive init
   /\ sparsities (snd (noteBehavior (VArr [VNum 1; VNum 2; VNum 3]) (VNum 7) init))
      = sparsities init
   /\ sparsitiesCalculatedThisGeneration
        (snd (noteBehavior (VArr [VNum 1; VNum 2; VNum 3]) (VNum 7) init))
      = sparsitiesCalculatedThisGeneration init)
  /\ (forall n,
        dimensionality init = None ->
        get_length (VArr [VNum 1; VNum 2; VNum 3]) = Return (Some n) ->
        forall later,
          dimensionality
            (run example_config later
                 (snd (noteBehavior (VArr [VNum 1; VNum 2; VNum 3]) (VNum 7) init)))
          = Some n)
  /\ (dimensionality init = None ->
      get_length (VArr [VNum 1; VNum 2; VNum 3]) = Return None ->
      returned (fst (noteBehavior (VArr [VNum 1; VNum 2; VNum 3]) (VNum 7) init)) = false
      /\ dimensionality (snd (noteBehavior (VArr [VNum 1; VNum 2; VNum 3]) (VNum 7) init))
         = None).
Proof.
  apply (failed_record_keeps_buffers example_config init
           (VArr [VNum 1; VNum 2; VNum 3]) (VNum 7)).
  exists []. reflexivity.
Defined.

(** C10 as stated fails: the first [noteBehavior] of a new object, given a
    number as behavior, throws and establishes no dimensionality; the next
    call establishes it. *)
Lemma first_record_of_a_number_fixes_no_dimensionality :
  returned (fst (noteBehavior (VNum 5) (VStr "g1") init)) = false
  /\ dimensionality (snd (noteBehavior (VNum 5) (VStr "g1") init)) = None
  /\ returned (fst (noteBehavior origin (VStr "g2")
                      (snd (noteBehavior (VNum 5) (VStr "g1") init)))) = true
  /\ dimensionality (snd (noteBehavior origin (VStr "g2")
                            (snd (noteBehavior (VNum 5) (VStr "g1") init))))
     = Some 2.
Proof.
  repeat split.
Qed.

(** ** The scenario of the specification

    [kNearestNeighbors = 1], [archiveThreshold = 2], [maxArchiveSize = 2];
    on these vectors the sum of absolute differences is the Euclidean
    distance. *)

Example first_generation_sparsities :
  fst (getSparsities example_config pair) = Return [10%Q; 10%Q].
Proof. vm_compute. reflexivity. Qed.

Example first_generation_archived :
  behaviorArchive (after example_config ArchiveAndClear pair)
  = [(origin, VStr "g1"); (far, VStr "g2")].
Proof. vm_compute. reflexivity. Qed.

Example second_generation_sparsities :
  fst (getSparsities example_config
         (run example_config
              [ArchiveAndClear; NoteBehavior far (VStr "g3")] pair))
  = Return [0%Q].
Proof. vm_compute. reflexivity. Qed.

Example second_generation_not_archived :
  behaviorArchive
    (run example_config
         [ArchiveAndClear; NoteBehavior far (VStr "g3"); ArchiveAndClear] pair)
  = [(origin, VStr "g1"); (far, VStr "g2")].
Proof. vm_compute. reflexivity. Qed.

(** ** Further properties of the code *)

Lemma is_undefined_true (v : value) : is_undefined v = true <-> v = VUndefined.
Proof. destruct v; simpl; split; intro H; congruence. Qed.

Lemma check_options_returns (o : Options) :
  returned (fst (check_options o init)) = true <-> valid o.
Proof.
  destruct o as [k t f m].
  unfold check_options, valid, positive_integer_or_absent, function_or_absent,
    positive_integer.
  cbv [bind assert ret throw]. simpl.
  destruct (isInt k), (greater_than_zero k); simpl;
    try (split; [discriminate|intros ((? & ?) & _); discriminate]).
  destruct (isInt t), (greater_than_zero t); simpl;
    try (split; [discriminate|intros (_ & (? & ?) & _); discriminate]).
  destruct f as [f|v]; simpl.
  - destruct (isInt m) eqn:Hi, (greater_than_zero m) eqn:Hg; simpl.
    + split; [intros _; repeat split; left; split; reflexivity|reflexivity].
    + destruct (is_undefined m) eqn:Hu; simpl.
      * apply is_undefined_true in Hu. split; [|reflexivity].
        intros _. repeat split. right. exact Hu.
      * split; [discriminate|]. intros (_ & _ & _ & [(_ & H)|H]); [discriminate|].
        apply is_undefined_true in H. congruence.
    + destruct (is_undefined m) eqn:Hu; simpl.
      * apply is_undefined_true in Hu. split; [|reflexivity].
        intros _. repeat split. right. exact Hu.
      * split; [discriminate|]. intros (_ & _ & _ & [(H & _)|H]); [discriminate|].
        apply is_undefined_true in H. congruence.
    + destruct (is_undefined m) eqn:Hu; simpl.
      * apply is_undefined_true in Hu. split; [|reflexivity].
        intros _. repeat split. right. exact Hu.
      * split; [discriminate|]. intros (_ & _ & _ & [(H & _)|H]); [discriminate|].
        apply is_undefined_true in H. congruence.
  - destruct (is_undefined v) eqn:Hv; simpl.
    + apply is_undefined_true in Hv.
      destruct (isInt m) eqn:Hi, (greater_than_zero m) eqn:Hg; simpl;
        try (split; [intros _; repeat split; [exact Hv|left; split; reflexivity]
                    |reflexivity]);
        destruct (is_undefined m) eqn:Hu; simpl;
        try (apply is_undefined_true in Hu; split; [|reflexivity];
             intros _; repeat split; [exact Hv|right; exact Hu]);
        (split; [discriminate|]; intros (_ & _ & _ & [(H1 & H2)|H]);
         [discriminate|apply is_undefined_true in H; congruence]).
    + split; [discriminate|]. intros (_ & _ & H & _).
      apply is_undefined_true in H. congruence.
Qed.

(** X1.  [makeArchive] returns a new object exactly for an options object
    whose [kNearestNeighbors] and [archiveThreshold] are integers greater
    than zero, whose [behaviorDistanceFunction] is a function or absent and
    whose [maxArchiveSize] is an integer greater than zero or absent; it
    throws on every other argument, in particular on every value that is
    not such an object. *)
Theorem construction_returns_exactly_for_valid_options
        (default : value -> value -> Q) (options : argument) :
  returned (makeArchive default options) = true
  <-> exists o, options = Object o /\ valid o.
Proof.
  split.
  - destruct options as [o|v].
    + intro H. exists o. split; [reflexivity|].
      apply check_options_returns. unfold makeArchive in H.
      destruct (fst (check_options o init)); [reflexivity|discriminate].
    + destruct v; simpl; discriminate.
  - intros (o & -> & Hv). apply check_options_returns in Hv.
    unfold makeArchive. destruct (fst (check_options o init)); [reflexivity|exact Hv].
Qed.

(** X2.  [noteBehavior] returns exactly when the guard is clear, the
    behavior is an array, the genome is a string, and the array has the
    established length if one is established; it then appends the
    observation at the end of the buffer, establishes the length of the
    array as dimensionality, and assigns nothing else. *)
Theorem record_returns_exactly_when_well_formed
        (behavior genome : value) (st : archive_state) :
  (returned (fst (noteBehavior behavior genome st)) = true
   <-> sparsitiesCalculatedThisGeneration st = false
       /\ exists l s,
           behavior = VArr l /\ genome = VStr s
           /\ (dimensionality st = None \/ dimensionality st = Some (List.length l)))
  /\ (forall l,
        behavior = VArr l ->
        returned (fst (noteBehavior behavior genome st)) = true ->
        snd (noteBehavior behavior genome st)
        = mkState (behaviorArchive st) (recentBehaviors st ++ [(behavior, genome)])
                  (Some (List.length l)) (sparsities st) false).
Proof.
  assert (Hiff : returned (fst (noteBehavior behavior genome st)) = true
                 -> sparsitiesCalculatedThisGeneration st = false
                    /\ exists l s,
                        behavior = VArr l /\ genome = VStr s
                        /\ (dimensionality st = None
                            \/ dimensionality st = Some (List.length l))).
  { intro Hret.
    pose proof (noteBehavior_cases behavior genome st) as H. cbv zeta in H.
    destruct H as (_ & _ & _ & Hd & H).
    destruct (fst (noteBehavior behavior genome st)); [|discriminate].
    destruct H as (_ & Hflag & Hg & l & Hb & Hl).
    split; [exact Hflag|].
    destruct genome as [| | | |s|]; try discriminate.
    exists l, s. repeat split; try assumption.
    destruct (dimensionality st) as [d|]; [right|left; reflexivity].
    congruence. }
  split.
  - split; [exact Hiff|].
    intros (Hflag & l & s & -> & -> & Hd).
    rewrite noteBehavior_returns by assumption. reflexivity.
  - intros l Hb Hret. destruct (Hiff Hret) as (Hflag & l' & s & Hb' & -> & Hd).
    assert (l' = l) by congruence. subst l' behavior.
    rewrite noteBehavior_returns by assumption. reflexivity.
Qed.

(** X3.  In a reachable state [getSparsities] ends in one of three ways: it
    throws the assertion on the behavior count when the buffer is empty; it
    throws out of [reduce] when the archive is empty and the buffer holds
    one observation; otherwise it returns one sparsity per observation and
    assigns the cache and the guard only.  The assertion on the length of
    the cache and the assertion of [measureSparsity] on its index never
    fail. *)
Theorem computation_ends_in_three_ways (cfg : config) (st : archive_state) :
  reachable cfg st ->
  (recentBehaviors st = []
   /\ getSparsities cfg st
      = (Throw (AssertionError "swirlnet: error: recent behavior count must be greater than zero."), st))
  \/ (behaviorArchive st = [] /\ (exists o, recentBehaviors st = [o])
      /\ getSparsities cfg st
         = (Throw (TypeError "Reduce of empty array with no initial value"), st))
  \/ (recentBehaviors st <> [] /\ has_candidates st
      /\ exists scores,
          getSparsities cfg st
          = (Return scores,
             mkState (behaviorArchive st) (recentBehaviors st) (dimensionality st)
                     scores true)
          /\ List.length scores = List.length (recentBehaviors st)).
Proof.
  intro Hreach. destruct (reachable_invariant cfg st Hreach) as (Hcache & _).
  destruct (recentBehaviors st) as [|o recent] eqn:Hr.
  - left. split; [reflexivity|]. apply getSparsities_empty, Hr.
  - right. assert (Hne : recentBehaviors st <> []) by (rewrite Hr; discriminate).
    destruct (has_candidates_dec st) as [Hc|Hnc].
    + right. split; [discriminate|]. split; [exact Hc|].
      exists (sparsity_values cfg st). split.
      * rewrite getSparsities_returns by assumption.
        destruct st; simpl in Hr; subst; reflexivity.
      * rewrite sparsity_values_length, Hr. reflexivity.
    + left. unfold has_candidates in Hnc. rewrite Hr in Hnc. simpl in Hnc.
      assert (Ha : behaviorArchive st = []).
      { destruct (behaviorArchive st); [reflexivity|simpl in Hnc; lia]. }
      assert (Hrecent : recent = []).
      { destruct recent; [reflexivity|simpl in Hnc; lia]. }
      subst recent. split; [exact Ha|]. split; [exists o; reflexivity|].
      apply getSparsities_alone; [exact Hcache|exact Hne|].
      unfold has_candidates. rewrite Ha, Hr. simpl. lia.
Qed.

Lemma computation_ends_in_three_ways_witness :
  (recentBehaviors pair = []
   /\ getSparsities example_config pair
      = (Throw (AssertionError "swirlnet: error: recent behavior count must be greater than zero."), pair))
  \/ (behaviorArchive pair = [] /\ (exists o, recentBehaviors pair = [o])
      /\ getSparsities example_config pair
         = (Throw (TypeError "Reduce of empty array with no initial value"), pair))
  \/ (recentBehaviors pair <> [] /\ has_candidates pair
      /\ exists scores,
          getSparsities example_config pair
          = (Return scores,
             mkState (behaviorArchive pair) (recentBehaviors pair) (dimensionality pair)
                     scores true)
          /\ List.length scores = List.length (recentBehaviors pair)).
Proof.
  apply (computation_ends_in_three_ways example_config pair).
  exists [NoteBehavior origin (VStr "g1"); NoteBehavior far (VStr "g2")].
  reflexivity.
Defined.

(** X4.  In a reachable state [archiveAndClear] throws exactly when
    [getSparsities] would, with the same exception, and then assigns
    nothing: the archive, the buffer, the cache and the guard stay as they
    were. *)
Theorem finalization_throws_as_computation_does (cfg : config) (st : archive_state) :
  reachable cfg st ->
  fst (archiveAndClear cfg st)
  = match fst (getSparsities cfg st) with
    | Return _ => Return tt
    | Throw e => Throw e
    end
  /\ (returned (fst (archiveAndClear cfg st)) = false ->
      snd (archiveAndClear cfg st) = st).
Proof.
  intro Hreach. pose proof (reachable_invariant cfg st Hreach) as Hinv.
  destruct Hinv as (Hcache & Hrest).
  destruct (recentBehaviors st) as [|o recent] eqn:Hr.
  - rewrite archiveAndClear_empty, getSparsities_empty by exact Hr.
    split; reflexivity.
  - assert (Hne : recentBehaviors st <> []) by (rewrite Hr; discriminate).
    destruct (has_candidates_dec st) as [Hc|Hnc].
    + rewrite archiveAndClear_returns, getSparsities_returns by assumption.
      split; [reflexivity|discriminate].
    + rewrite archiveAndClear_alone, getSparsities_alone by assumption.
      split; reflexivity.
Qed.

Lemma finalization_throws_as_computation_does_witness :
  fst (archiveAndClear example_config alone)
  = match fst (getSparsities example_config alone) with
    | Return _ => Return tt
    | Throw e => Throw e
    end
  /\ (returned (fst (archiveAndClear example_config alone)) = false ->
      snd (archiveAndClear example_config alone) = alone).
Proof.
  apply (finalization_throws_as_computation_does example_config alone).
  exists [NoteBehavior origin (VStr "g1")]. reflexivity.
Defined.

(** X5.  In a reachable state, calling [getSparsities] before
    [archiveAndClear] changes nothing of what [archiveAndClear] leaves: the
    cached sparsities it then reads are the ones it would compute. *)
Theorem finalizing_after_computing_is_finalizing (cfg : config) (st : archive_state) :
  reachable cfg st ->
  after cfg ArchiveAndClear (after cfg GetSparsities st)
  = after cfg ArchiveAndClear st.
Proof.
  intro Hreach. pose proof (reachable_invariant cfg st Hreach) as Hinv.
  simpl. destruct (getSparsities_after cfg st Hinv) as [(_ & -> & _)|(Hne & Hc & ->)].
  - reflexivity.
  - cbn [snd].
    pose proof (computed_invariant cfg st Hinv Hne Hc) as (Hcache1 & _).
    destruct Hinv as (Hcache & _).
    rewrite (archiveAndClear_returns cfg st) by assumption.
    rewrite archiveAndClear_returns.
    + destruct st; reflexivity.
    + exact Hcache1.
    + destruct st; exact Hne.
    + destruct st; exact Hc.
Qed.

Lemma finalizing_after_computing_is_finalizing_witness :
  after example_config ArchiveAndClear (after example_config GetSparsities pair)
  = after example_config ArchiveAndClear pair.
Proof.
  apply (finalizing_after_computing_is_finalizing example_config pair).
  exists [NoteBehavior origin (VStr "g1"); NoteBehavior far (VStr "g2")].
  reflexivity.
Defined.

(** X6.  The throw of [getSparsities] on a first, single observation does
    not close recording: a second observation of the same length can still
    be recorded, and [getSparsities] then returns a sparsity for each of the
    two. *)
Theorem failed_computation_leaves_recording_open
        (cfg : config) (st : archive_state) (o : observation)
        (l : list value) (g : string) :
  reachable cfg st ->
  behaviorArchive st = [] ->
  recentBehaviors st = [o] ->
  dimensionality st = Some (List.length l) ->
  returned (fst (getSparsities cfg st)) = false
  /\ exists st2 scores,
      noteBehavior (VArr l) (VStr g) (snd (getSparsities cfg st)) = (Return tt, st2)
      /\ recentBehaviors st2 = [o; (VArr l, VStr g)]
      /\ fst (getSparsities cfg st2) = Return scores
      /\ List.length scores = 2.
Proof.
  intros Hreach Ha Hr Hd.
  pose proof (reachable_invariant cfg st Hreach) as Hinv.
  assert (Hnc : ~ has_candidates st).
  { unfold has_candidates. rewrite Ha, Hr. simpl. lia. }
  assert (Hne : recentBehaviors st <> []) by (rewrite Hr; discriminate).
  destruct Hinv as (Hcache & Hrest).
  rewrite getSparsities_alone by assumption. split; [reflexivity|].
  assert (Hflag : sparsitiesCalculatedThisGeneration st = false).
  { destruct Hcache as [[H _]|(_ & _ & H & _)]; [exact H|contradiction]. }
  cbn [snd].
  pose proof (noteBehavior_returns l g st Hflag (or_intror Hd)) as Hnote.
  eexists. exists (sparsity_values cfg (after cfg (NoteBehavior (VArr l) (VStr g)) st)).
  split; [exact Hnote|].
  assert (Hst2 : after cfg (NoteBehavior (VArr l) (VStr g)) st
                 = mkState (behaviorArchive st)
                           (recentBehaviors st ++ [(VArr l, VStr g)])
                           (Some (List.length l)) (sparsities st) false).
  { simpl. rewrite Hnote. reflexivity. }
  pose proof (reachable_after cfg (NoteBehavior (VArr l) (VStr g)) st Hreach) as Hreach2.
  destruct (reachable_invariant cfg _ Hreach2) as (Hcache2 & _).
  rewrite Hst2 in *.
  split; [simpl; rewrite Hr; reflexivity|].
  rewrite getSparsities_returns.
  - split; [reflexivity|]. rewrite sparsity_values_length. simpl.
    rewrite Hr. reflexivity.
  - exact Hcache2.
  - simpl. rewrite Hr. discriminate.
  - unfold has_candidates. simpl. rewrite Hr. simpl. lia.
Qed.

Lemma failed_computation_leaves_recording_open_witness :
  returned (fst (getSparsities example_config alone)) = false
  /\ exists st2 scores,
      noteBehavior (VArr [VNum 10; VNum 0]) (VStr "g2")
                   (snd (getSparsities example_config alone)) = (Return tt, st2)
      /\ recentBehaviors st2
         = [(origin, VStr "g1"); (VArr [VNum 10; VNum 0], VStr "g2")]
      /\ fst (getSparsities example_config st2) = Return scores
      /\ List.length scores = 2.
Proof.
  apply (failed_computation_leaves_recording_open
           example_config alone (origin, VStr "g1") [VNum 10; VNum 0] "g2").
  - exists [NoteBehavior origin (VStr "g1")]. reflexivity.
  - reflexivity.
  - reflexivity.
  - reflexivity.
Defined.

Lemma after_stored (cfg : config) (c : call) (st : archive_state) (o : observation) :
  invariant cfg st ->
  In o (stored (after cfg c st)) ->
  In o (stored st)
  \/ (c = NoteBehavior (fst o) (snd o)
      /\ Array_isArray (fst o) = true /\ is_string (snd o) = true).
Proof.
  intros Hinv Ho. unfold stored in *.
  destruct c as [behavior genome| | | |]; simpl in Ho.
  - pose proof (noteBehavior_cases behavior genome st) as H. cbv zeta in H.
    destruct H as (Ha & _ & _ & _ & Hr). rewrite Ha in Ho.
    destruct (fst (noteBehavior behavior genome st)).
    + destruct Hr as (Hr & _ & Hg & l & Hb & _). rewrite Hr, app_assoc in Ho.
      apply in_app_or in Ho. destruct Ho as [Ho|[<-|[]]]; [left; exact Ho|right].
      simpl. subst behavior. repeat split. exact Hg.
    + rewrite Hr in Ho. left. exact Ho.
  - destruct (getSparsities_after cfg st Hinv) as [(_ & Hs & _)|(_ & _ & Hs)];
      rewrite Hs in Ho; left; exact Ho.
  - destruct (archiveAndClear_after cfg st Hinv) as [(_ & Hs & _)|(_ & _ & Hs)];
      rewrite Hs in Ho; [left; exact Ho|].
    simpl in Ho. rewrite app_nil_r in Ho. apply pruned_incl in Ho. left.
    apply in_app_or in Ho. apply in_or_app.
    destruct Ho as [Ho|Ho]; [left; exact Ho|right].
    apply (novel_incl cfg _ _ _ Ho).
  - left. exact Ho.
  - left. exact Ho.
Qed.

Lemma run_stored (cfg : config) (o : observation) (calls : list call) :
  forall st,
    invariant cfg st ->
    In o (stored (run cfg calls st)) ->
    In o (stored st)
    \/ (In (NoteBehavior (fst o) (snd o)) calls
        /\ Array_isArray (fst o) = true /\ is_string (snd o) = true).
Proof.
  induction calls as [|c calls IH]; intros st Hinv Ho.
  - left. exact Ho.
  - change (In o (stored (run cfg calls (after cfg c st)))) in Ho.
    apply IH in Ho; [|apply after_invariant, Hinv].
    destruct Ho as [Ho|(Hin & Hrest)].
    + apply (after_stored cfg c st o Hinv) in Ho.
      destruct Ho as [Ho|(-> & Hrest)]; [left; exact Ho|right].
      split; [left; reflexivity|exact Hrest].
    + right. split; [right; exact Hin|exact Hrest].
Qed.

(** X7.  Whatever the calls made on a new object, every observation found
    in its archive or in its buffer was passed to a [noteBehavior] of these
    calls, with an array as behavior and a string as genome: nothing else is
    ever stored. *)
Theorem stored_observations_were_recorded
        (cfg : config) (calls : list call) (o : observation) :
  In o (stored (run cfg calls init)) ->
  In (NoteBehavior (fst o) (snd o)) calls
  /\ Array_isArray (fst o) = true
  /\ is_string (snd o) = true.
Proof.
  intro Ho. apply (run_stored cfg o calls init (init_invariant cfg)) in Ho.
  destruct Ho as [[]|Ho]. exact Ho.
Qed.

Lemma stored_observations_were_recorded_witness :
  In (NoteBehavior (fst (far, VStr "g2")) (snd (far, VStr "g2")))
     [NoteBehavior origin (VStr "g1"); NoteBehavior far (VStr "g2"); ArchiveAndClear]
  /\ Array_isArray (fst (far, VStr "g2")) = true
  /\ is_string (snd (far, VStr "g2")) = true.
Proof.
  apply (stored_observations_were_recorded
           example_config
           [NoteBehavior origin (VStr "g1"); NoteBehavior far (VStr "g2"); ArchiveAndClear]
           (far, VStr "g2")).
  vm_compute. right. left. reflexivity.
Defined.

Lemma pruned_unbounded (cfg : config) (archive : list observation) :
  max_archive_size cfg = None -> pruned cfg archive = archive.
Proof. intro H. unfold pruned. rewrite H. reflexivity. Qed.

Lemma after_archive_grows (cfg : config) (c : call) (st : archive_state) :
  max_archive_size cfg = None ->
  invariant cfg st ->
  exists appended, behaviorArchive (after cfg c st) = behaviorArchive st ++ appended.
Proof.
  intros Hm Hinv. destruct c as [behavior genome| | | |]; simpl.
  - pose proof (noteBehavior_cases behavior genome st) as H. cbv zeta in H.
    destruct H as (Ha & _). exists []. rewrite app_nil_r. exact Ha.
  - exists []. rewrite app_nil_r.
    destruct (getSparsities_after cfg st Hinv) as [(_ & -> & _)|(_ & _ & ->)];
      reflexivity.
  - destruct (archiveAndClear_after cfg st Hinv) as [(_ & -> & _)|(_ & _ & ->)].
    + exists []. rewrite app_nil_r. reflexivity.
    + eexists. simpl. rewrite pruned_unbounded by exact Hm. reflexivity.
  - exists []. rewrite app_nil_r. reflexivity.
  - exists []. rewrite app_nil_r. reflexivity.
Qed.

(** X8.  Without a [maxArchiveSize] nothing is ever evicted: in a reachable
    state, whatever calls follow, the archive afterwards is the archive
    before, in the same order, with new entries appended at its end. *)
Theorem archive_only_grows_without_maximum
        (cfg : config) (st : archive_state) (calls : list call) :
  max_archive_size cfg = None ->
  reachable cfg st ->
  exists appended,
    behaviorArchive (run cfg calls st) = behaviorArchive st ++ appended.
Proof.
  intros Hm Hreach. pose proof (reachable_invariant cfg st Hreach) as Hinv.
  clear Hreach. revert st Hinv.
  induction calls as [|c calls IH]; intros st Hinv.
  - exists []. rewrite app_nil_r. reflexivity.
  - change (run cfg (c :: calls) st) with (run cfg calls (after cfg c st)).
    destruct (IH (after cfg c st) (after_invariant cfg c st Hinv)) as [later Hlater].
    destruct (after_archive_grows cfg c st Hm Hinv) as [first Hfirst].
    exists (first ++ later). rewrite Hlater, Hfirst, app_assoc. reflexivity.
Qed.

Lemma archive_only_grows_without_maximum_witness :
  exists appended,
    behaviorArchive
      (run unbounded_config
           [ArchiveAndClear; NoteBehavior origin (VStr "g3");
            NoteBehavior (VArr [VNum 0; VNum 7]) (VStr "g4"); ArchiveAndClear]
           (run unbounded_config
                [NoteBehavior origin (VStr "g1"); NoteBehavior far (VStr "g2")] init))
    = behaviorArchive
        (run unbounded_config
             [NoteBehavior origin (VStr "g1"); NoteBehavior far (VStr "g2")] init)
      ++ appended.
Proof.
  apply (archive_only_grows_without_maximum unbounded_config).
  - reflexivity.
  - exists [NoteBehavior origin (VStr "g1"); NoteBehavior far (VStr "g2")].
    reflexivity.
Defined.

(** X9.  With a [maxArchiveSize], a generation that archives at least that
    many observations replaces the whole archive: after [archiveAndClear]
    the archive is the last [maxArchiveSize] novel observations of the
    generation, in recording order. *)
Theorem full_generation_replaces_archive
        (cfg : config) (m : positive) (st : archive_state) :
  max_archive_size cfg = Some m ->
  reachable cfg st ->
  recentBehaviors st <> [] ->
  has_candidates st ->
  Pos.to_nat m
  <= List.length (novel cfg (sparsity_values cfg st) (recentBehaviors st)) ->
  fst (archiveAndClear cfg st) = Return tt
  /\ behaviorArchive (snd (archiveAndClear cfg st))
     = skipn (List.length (novel cfg (sparsity_values cfg st) (recentBehaviors st))
              - Pos.to_nat m)
             (novel cfg (sparsity_values cfg st) (recentBehaviors st)).
Proof.
  intros Hm Hreach Hne Hc Hfull.
  destruct (reachable_invariant cfg st Hreach) as (Hcache & _).
  rewrite archiveAndClear_returns by assumption. split; [reflexivity|].
  cbn [snd behaviorArchive].
  set (new := novel cfg (sparsity_values cfg st) (recentBehaviors st)) in *.
  unfold pruned. rewrite Hm. rewrite length_app.
  destruct (Nat.ltb_spec (Pos.to_nat m)
                         (List.length (behaviorArchive st) + List.length new)).
  - rewrite skipn_app.
    rewrite skipn_all2 by lia. simpl. f_equal. lia.
  - assert (Ha : behaviorArchive st = []).
    { destruct (behaviorArchive st); [reflexivity|simpl in *; lia]. }
    rewrite Ha in *. simpl in *.
    replace (List.length new - Pos.to_nat m) with 0 by lia. reflexivity.
Qed.

Lemma full_generation_replaces_archive_witness :
  fst (archiveAndClear example_config second_generation) = Return tt
  /\ behaviorArchive (snd (archiveAndClear example_config second_generation))
     = skipn (List.length (novel example_config
                                 (sparsity_values example_config second_generation)
                                 (recentBehaviors second_generation))
              - Pos.to_nat 2)
             (novel example_config (sparsity_values example_config second_generation)
                    (recentBehaviors second_generation)).
Proof.
  apply (full_generation_replaces_archive example_config 2 second_generation).
  - reflexivity.
  - exists [NoteBehavior origin (VStr "g1"); NoteBehavior far (VStr "g2"); ArchiveAndClear;
            NoteBehavior (VArr [VNum 100; VNum 0]) (VStr "g3");
            NoteBehavior (VArr [VNum 200; VNum 0]) (VStr "g4")].
    reflexivity.
  - vm_compute. discriminate.
  - unfold has_candidates. vm_compute. lia.
  - vm_compute. lia.
Defined.

(** *** The size of a sparsity *)

Lemma num_of_nat_succ (n : nat) : (num_of_nat (S n) == num_of_nat n + 1)%Q.
Proof.
  unfold num_of_nat. rewrite Nat2Z.inj_succ, <- Z.add_1_r, inject_Z_plus.
  reflexivity.
Qed.

Lemma num_of_nat_positive (n : nat) : 0 < n -> (0 < num_of_nat n)%Q.
Proof.
  intro H. unfold num_of_nat. change 0%Q with (inject_Z 0).
  rewrite <- Zlt_Qlt. lia.
Qed.

Lemma sum_at_least (lo : Q) (l : list Q) :
  (forall x, In x l -> (lo <= x)%Q) ->
  (lo * num_of_nat (List.length l) <= sum l)%Q.
Proof.
  induction l as [|x l IH]; intro H.
  - simpl. unfold num_of_nat. simpl. rewrite Qmult_0_r. apply Qle_refl.
  - simpl List.length. rewrite num_of_nat_succ. simpl sum.
    setoid_replace (lo * (num_of_nat (List.length l) + 1))%Q
      with (lo + lo * num_of_nat (List.length l))%Q by ring.
    apply Qplus_le_compat.
    + apply H. left. reflexivity.
    + apply IH. intros y Hy. apply H. right. exact Hy.
Qed.

Lemma mean_not_negative (l : list Q) :
  l <> [] ->
  (forall x, In x l -> (0 <= x)%Q) ->
  (0 <= arithmetic_mean l)%Q.
Proof.
  intros Hne H. unfold arithmetic_mean.
  apply Qle_shift_div_l.
  - apply num_of_nat_positive. destruct l; [congruence|simpl; lia].
  - apply sum_at_least, H.
Qed.

Lemma sum_permutation (l l' : list Q) :
  Permutation l l' -> (sum l == sum l')%Q.
Proof.
  induction 1 as [|x l l' _ IH|x y l|l l' l'' _ IH1 _ IH2]; simpl.
  - reflexivity.
  - rewrite IH. reflexivity.
  - ring.
  - rewrite IH1. exact IH2.
Qed.

Lemma k_smallest_incl (k : nat) (candidates nearest : list Q) (x : Q) :
  k_smallest k candidates nearest -> In x nearest -> In x candidates.
Proof.
  intros (_ & _ & farther & Hp & _) Hx.
  apply (Permutation_in _ Hp). apply in_or_app. left. exact Hx.
Qed.

(** What [getSparsities] returns at one position of a reachable state, in
    terms of the distances that [measureSparsity] collects there. *)
Lemma getSparsities_entry (cfg : config) (st : archive_state) (i : nat) (o : observation) :
  reachable cfg st ->
  nth_error (recentBehaviors st) i = Some o ->
  has_candidates st ->
  distances_of cfg st (fst o) i <> []
  /\ exists q nearest,
      fst (getSparsities cfg st) = Return (sparsity_values cfg st)
      /\ nth_error (sparsity_values cfg st) i = Some q
      /\ k_smallest (k_eff cfg (distances_of cfg st (fst o) i))
                    (distances_of cfg st (fst o) i) nearest
      /\ (q == arithmetic_mean nearest)%Q.
Proof.
  intros Hreach Hnth Hc.
  destruct (reachable_invariant cfg st Hreach) as (Hcache & _).
  assert (Hi : i < List.length (recentBehaviors st)).
  { apply nth_error_Some. rewrite Hnth. discriminate. }
  assert (Hne : recentBehaviors st <> []).
  { intro He. rewrite He in Hi. simpl in Hi. lia. }
  assert (Hds : distances_of cfg st (fst o) i <> []).
  { intro He. apply (f_equal (@List.length Q)) in He.
    rewrite distances_of_length in He by exact Hi.
    unfold has_candidates in Hc. simpl in He. lia. }
  split; [exact Hds|].
  destruct (measureSparsity_nearest cfg st i o Hnth Hds)
    as (q & nearest & Hq & Hk & Hmean).
  exists q, nearest. rewrite getSparsities_returns by assumption.
  split; [reflexivity|]. split; [apply sparsity_values_nth; assumption|].
  split; assumption.
Qed.

Lemma manhattan_list_nonnegative (a : list value) :
  forall b, (0 <= manhattan_list a b)%Q.
Proof.
  induction a as [|x a IH]; intro b.
  - apply Qle_refl.
  - destruct x as [| | |p| |]; try apply Qle_refl.
    destruct b as [|[| | |q| |] b]; try apply Qle_refl.
    exact (Qplus_le_compat 0 (Qabs (p - q)) 0 (manhattan_list a b)
                           (Qabs_nonneg (p - q)) (IH b)).
Qed.

Lemma manhattan_nonnegative (x y : value) : (0 <= manhattan x y)%Q.
Proof.
  destruct x, y; try apply Qle_refl. apply manhattan_list_nonnegative.
Qed.

(** X10.  When none of the distances collected for an observation is
    negative, the sparsity that [getSparsities] returns for it is not
    negative either. *)
Theorem sparsity_not_negative
        (cfg : config) (st : archive_state) (i : nat) (o : observation) :
  reachable cfg st ->
  nth_error (recentBehaviors st) i = Some o ->
  has_candidates st ->
  (forall d, In d (distances_of cfg st (fst o) i) -> (0 <= d)%Q) ->
  exists scores q,
    fst (getSparsities cfg st) = Return scores
    /\ nth_error scores i = Some q
    /\ (0 <= q)%Q.
Proof.
  intros Hreach Hnth Hc Hbounds.
  destruct (getSparsities_entry cfg st i o Hreach Hnth Hc)
    as (Hds & q & nearest & Hret & Hq & Hk & Hmean).
  exists (sparsity_values cfg st), q.
  split; [exact Hret|]. split; [exact Hq|].
  rewrite Hmean. apply mean_not_negative.
  - destruct Hk as (Hlen & _). intro He. rewrite He in Hlen. simpl in Hlen.
    pose proof (k_eff_positive cfg _ Hds). lia.
  - intros x Hx. apply Hbounds. apply (k_smallest_incl _ _ _ _ Hk Hx).
Qed.

Lemma sparsity_not_negative_witness :
  exists scores q,
    fst (getSparsities example_config second_generation) = Return scores
    /\ nth_error scores 1 = Some q
    /\ (0 <= q)%Q.
Proof.
  apply (sparsity_not_negative example_config second_generation 1
           (VArr [VNum 200; VNum 0], VStr "g4")).
  - exists [NoteBehavior origin (VStr "g1"); NoteBehavior far (VStr "g2"); ArchiveAndClear;
            NoteBehavior (VArr [VNum 100; VNum 0]) (VStr "g3");
            NoteBehavior (VArr [VNum 200; VNum 0]) (VStr "g4")].
    reflexivity.
  - reflexivity.
  - unfold has_candidates. vm_compute. lia.
  - intros d Hd. rewrite distances_of_others in Hd. apply in_app_or in Hd.
    destruct Hd as [Hd|Hd]; apply in_map_iff in Hd;
      destruct Hd as (a & <- & _); apply manhattan_nonnegative.
Defined.

Lemma k_eff_one (cfg : config) (candidates : list Q) :
  options_kNearestNeighbors cfg = 1%positive -> candidates <> [] ->
  k_eff cfg candidates = 1.
Proof.
  intros Hk Hne. unfold k_eff. rewrite Hk.
  destruct candidates; [congruence|simpl; lia].
Qed.

Lemma nearest_one (candidates nearest : list Q) :
  k_smallest 1 candidates nearest ->
  exists x,
    nearest = [x] /\ In x candidates
    /\ forall y, In y candidates -> (x <= y)%Q.
Proof.
  intros (Hlen & Hs & farther & Hp & Hle).
  destruct nearest as [|x [|x' rest]]; try discriminate.
  exists x. split; [reflexivity|]. split.
  - apply (Permutation_in _ Hp). left. reflexivity.
  - intros y Hy. apply (Permutation_in _ (Permutation_sym Hp)) in Hy.
    destruct Hy as [<-|Hy]; [apply Qle_refl|].
    apply Hle; [left; reflexivity|exact Hy].
Qed.

Lemma mean_of_one (x : Q) : (arithmetic_mean [x] == x)%Q.
Proof. unfold arithmetic_mean, num_of_nat. simpl. field. Qed.

(** X11.  With [kNearestNeighbors = 1] a sparsity is the distance to the
    nearest other behavior: it equals one of the distances collected for
    its observation, and none of them is smaller. *)
Theorem nearest_neighbour_sparsity
        (cfg : config) (st : archive_state) (i : nat) (o : observation) :
  options_kNearestNeighbors cfg = 1%positive ->
  reachable cfg st ->
  nth_error (recentBehaviors st) i = Some o ->
  has_candidates st ->
  exists scores q,
    fst (getSparsities cfg st) = Return scores
    /\ nth_error scores i = Some q
    /\ (exists x, In x (distances_of cfg st (fst o) i) /\ (q == x)%Q)
    /\ (forall y, In y (distances_of cfg st (fst o) i) -> (q <= y)%Q).
Proof.
  intros Hone Hreach Hnth Hc.
  destruct (getSparsities_entry cfg st i o Hreach Hnth Hc)
    as (Hds & q & nearest & Hret & Hq & Hk & Hmean).
  rewrite (k_eff_one cfg _ Hone Hds) in Hk.
  destruct (nearest_one _ _ Hk) as (x & -> & Hx & Hmin).
  rewrite mean_of_one in Hmean.
  exists (sparsity_values cfg st), q.
  split; [exact Hret|]. split; [exact Hq|]. split.
  - exists x. split; assumption.
  - intros y Hy. rewrite Hmean. apply Hmin, Hy.
Qed.

Lemma nearest_neighbour_sparsity_witness :
  exists scores q,
    fst (getSparsities example_config pair) = Return scores
    /\ nth_error scores 1 = Some q
    /\ (exists x, In x (distances_of example_config pair (fst (far, VStr "g2")) 1)
                  /\ (q == x)%Q)
    /\ (forall y, In y (distances_of example_config pair (fst (far, VStr "g2")) 1)
                  -> (q <= y)%Q).
Proof.
  apply (nearest_neighbour_sparsity example_config pair 1 (far, VStr "g2")).
  - reflexivity.
  - exists [NoteBehavior origin (VStr "g1"); NoteBehavior far (VStr "g2")].
    reflexivity.
  - reflexivity.
  - unfold has_candidates. simpl. lia.
Defined.

(** X12.  When an observation has no more candidates than
    [kNearestNeighbors], its sparsity is the arithmetic mean of all the
    distances collected for it. *)
Theorem few_candidates_mean_of_all
        (cfg : config) (st : archive_state) (i : nat) (o : observation) :
  reachable cfg st ->
  nth_error (recentBehaviors st) i = Some o ->
  has_candidates st ->
  List.length (distances_of cfg st (fst o) i)
  <= Pos.to_nat (options_kNearestNeighbors cfg) ->
  exists scores q,
    fst (getSparsities cfg st) = Return scores
    /\ nth_error scores i = Some q
    /\ (q == arithmetic_mean (distances_of cfg st (fst o) i))%Q.
Proof.
  intros Hreach Hnth Hc Hfew.
  destruct (getSparsities_entry cfg st i o Hreach Hnth Hc)
    as (Hds & q & nearest & Hret & Hq & Hk & Hmean).
  exists (sparsity_values cfg st), q.
  split; [exact Hret|]. split; [exact Hq|].
  rewrite Hmean. destruct Hk as (Hlen & _ & farther & Hp & _).
  assert (Hk : k_eff cfg (distances_of cfg st (fst o) i)
               = List.length (distances_of cfg st (fst o) i)).
  { unfold k_eff. lia. }
  rewrite Hk in Hlen.
  assert (Hfar : farther = []).
  { apply Permutation_length in Hp. rewrite length_app in Hp.
    destruct farther; [reflexivity|simpl in Hp; lia]. }
  subst farther. rewrite app_nil_r in Hp.
  unfold arithmetic_mean. rewrite (sum_permutation _ _ Hp), Hlen. reflexivity.
Qed.

Lemma few_candidates_mean_of_all_witness :
  exists scores q,
    fst (getSparsities example_config pair) = Return scores
    /\ nth_error scores 0 = Some q
    /\ (q == arithmetic_mean
               (distances_of example_config pair (fst (origin, VStr "g1")) 0))%Q.
Proof.
  apply (few_candidates_mean_of_all example_config pair 0 (origin, VStr "g1")).
  - exists [NoteBehavior origin (VStr "g1"); NoteBehavior far (VStr "g2")].
    reflexivity.
  - reflexivity.
  - unfold has_candidates. simpl. lia.
  - vm_compute. lia.
Defined.

Lemma in_others {A : Type} (l : list A) :
  forall i j x, nth_error l j = Some x -> j <> i -> In x (others i l).
Proof.
  induction l as [|a l IH]; intros i j x Hnth Hne.
  - destruct j; discriminate.
  - destruct j as [|j], i as [|i]; try congruence.
    + simpl in Hnth. injection Hnth as ->. left. reflexivity.
    + simpl in Hnth. unfold others. simpl. apply (nth_error_In _ _ Hnth).
    + simpl in Hnth. right. apply (IH i j x Hnth). congruence.
Qed.

(** X13.  With [kNearestNeighbors = 1] and a distance function that is
    never negative and is zero from a behavior to itself, an observation
    whose behavior is recorded a second time in the same generation gets the
    sparsity zero, which is below every threshold greater than zero: the
    loop of [archiveAndClear] does not archive it. *)
Theorem twin_in_generation_is_not_novel
        (cfg : config) (st : archive_state) (i j : nat) (oi oj : observation) :
  options_kNearestNeighbors cfg = 1%positive ->
  (forall x y, (0 <= measureBehaviorDistance cfg x y)%Q) ->
  (measureBehaviorDistance cfg (fst oi) (fst oi) == 0)%Q ->
  (0 < options_archiveThreshold cfg)%Q ->
  reachable cfg st ->
  nth_error (recentBehaviors st) i = Some oi ->
  nth_error (recentBehaviors st) j = Some oj ->
  i <> j ->
  fst oj = fst oi ->
  exists scores q,
    fst (getSparsities cfg st) = Return scores
    /\ nth_error scores i = Some q
    /\ (q == 0)%Q
    /\ num_ge q (options_archiveThreshold cfg) = false.
Proof.
  intros Hone Hnonneg Hself Hthreshold Hreach Hi Hj Hij Hsame.
  assert (Hc : has_candidates st).
  { unfold has_candidates.
    assert (i < List.length (recentBehaviors st))
      by (apply nth_error_Some; rewrite Hi; discriminate).
    assert (j < List.length (recentBehaviors st))
      by (apply nth_error_Some; rewrite Hj; discriminate).
    lia. }
  destruct (getSparsities_entry cfg st i oi Hreach Hi Hc)
    as (Hds & q & nearest & Hret & Hq & Hk & Hmean).
  rewrite (k_eff_one cfg _ Hone Hds) in Hk.
  destruct (nearest_one _ _ Hk) as (x & -> & Hx & Hmin).
  rewrite mean_of_one in Hmean.
  assert (Htwin : In (measureBehaviorDistance cfg (fst oj) (fst oi))
                     (distances_of cfg st (fst oi) i)).
  { rewrite distances_of_others. apply in_or_app. right.
    apply (in_map (fun B' => measureBehaviorDistance cfg (fst B') (fst oi))).
    apply (in_others _ i j oj Hj). congruence. }
  assert (Hzero : (q == 0)%Q).
  { rewrite Hmean. apply Qle_antisym.
    - rewrite <- Hself, <- Hsame at 1. apply Hmin, Htwin.
    - rewrite distances_of_others in Hx. apply in_app_or in Hx.
      destruct Hx as [Hx|Hx]; apply in_map_iff in Hx;
        destruct Hx as (a & <- & _); apply Hnonneg. }
  exists (sparsity_values cfg st), q.
  split; [exact Hret|]. split; [exact Hq|]. split; [exact Hzero|].
  unfold num_ge. destruct (Qle_bool (options_archiveThreshold cfg) q) eqn:E;
    [|reflexivity].
  apply Qle_bool_iff in E. rewrite Hzero in E.
  exfalso. exact (Qlt_not_le _ _ Hthreshold E).
Qed.

Lemma twin_in_generation_is_not_novel_witness :
  exists scores q,
    fst (getSparsities example_config twins) = Return scores
    /\ nth_error scores 0 = Some q
    /\ (q == 0)%Q
    /\ num_ge q (options_archiveThreshold example_config) = false.
Proof.
  apply (twin_in_generation_is_not_novel
           example_config twins 0 1 (far, VStr "g1") (far, VStr "g2")).
  - reflexivity.
  - exact manhattan_nonnegative.
  - reflexivity.
  - reflexivity.
  - exists [NoteBehavior far (VStr "g1"); NoteBehavior far (VStr "g2")].
    reflexivity.
  - reflexivity.
  - reflexivity.
  - discriminate.
  - reflexivity.
Defined.

(** *** The default distance function *)

Section DefaultDistanceProperties.

Variable Math_sqrt : Q -> Q.
Variable ToNumber : value -> Q.

Lemma square_symmetric (p q : Q) : Math_pow (p - q) 2 = Math_pow (q - p) 2.
Proof.
  destruct p as [pn pd], q as [qn qd].
  unfold Math_pow, Qpower, Qpower_positive, Qminus, Qplus, Qopp, Qmult. simpl.
  rewrite (Pos.mul_comm qd pd). f_equal. ring.
Qed.

Lemma distance_loop_symmetric (a b : list value) (indices : list nat) :
  forall acc,
    distance_loop ToNumber a b indices acc = distance_loop ToNumber b a indices acc.
Proof.
  induction indices as [|i rest IH]; intro acc; cbn [distance_loop].
  - reflexivity.
  - rewrite square_symmetric. apply IH.
Qed.

Lemma distance_loop_shift (x y : value) (a b : list value) (m : nat) :
  forall n acc,
    distance_loop ToNumber (x :: a) (y :: b) (seq (S n) m) acc
    = distance_loop ToNumber a b (seq n m) acc.
Proof.
  induction m as [|m IH]; intros n acc; simpl.
  - reflexivity.
  - apply IH.
Qed.

Lemma distance_loop_vectors (a : list Q) :
  forall (b : list Q) (acc : Q),
    List.length a = List.length b ->
    (distance_loop ToNumber (map VNum a) (map VNum b) (seq 0 (List.length a)) acc
     == acc + sum_of_squares a b)%Q.
Proof.
  induction a as [|x a IH]; intros b acc Hlen.
  - destruct b; [|discriminate]. unfold sum_of_squares. simpl. ring.
  - destruct b as [|y b]; [discriminate|]. simpl in Hlen.
    cbn [List.length seq map distance_loop].
    rewrite distance_loop_shift. rewrite IH by lia.
    unfold sum_of_squares, element, Math_pow. simpl. ring.
Qed.

Lemma square_nonnegative (q : Q) : (0 <= q * q)%Q.
Proof.
  destruct q as [n d]. unfold Qle, Qmult. simpl. rewrite Z.mul_1_r.
  apply Z.square_nonneg.
Qed.

Lemma sum_of_squares_nonnegative (a : list Q) :
  forall b, (0 <= sum_of_squares a b)%Q.
Proof.
  induction a as [|x a IH]; intro b.
  - apply Qle_refl.
  - destruct b as [|y b]; [apply Qle_refl|].
    unfold sum_of_squares. simpl. rewrite <- (Qplus_0_r 0).
    apply Qplus_le_compat; [apply square_nonnegative|apply IH].
Qed.

Lemma sum_of_squares_same (a : list Q) :
  forall b, Forall2 Qeq a b -> (sum_of_squares a b == 0)%Q.
Proof.
  induction a as [|x a IH]; intros b H.
  - inversion H. reflexivity.
  - inversion H as [|? y ? b' Hxy Hrest]; subst.
    assert (Hcons : (sum_of_squares (x :: a) (y :: b')
                     == (x - y) * (x - y) + sum_of_squares a b')%Q)
      by (unfold sum_of_squares; simpl; reflexivity).
    rewrite Hcons, (IH b' Hrest), Hxy. ring.
Qed.

End DefaultDistanceProperties.

(** X14.  In every reachable state the two assertions of
    [defaultBehaviorDistanceFunction] hold for any two behaviors found in
    the archive or in the buffer, the pairs that [measureSparsity] passes to
    it: both are arrays, of one length, and the function returns. *)
Theorem default_distance_returns_on_stored
        (Math_sqrt : Q -> Q) (ToNumber : value -> Q)
        (cfg : config) (st : archive_state) (o1 o2 : observation) :
  reachable cfg st ->
  In o1 (stored st) ->
  In o2 (stored st) ->
  returned (defaultBehaviorDistanceFunction Math_sqrt ToNumber (fst o1) (fst o2))
  = true.
Proof.
  intros Hreach H1 H2.
  destruct (reachable_invariant cfg st Hreach) as (_ & _ & Hdim).
  destruct (Hdim o1 H1) as (l1 & -> & Hd1).
  destruct (Hdim o2 H2) as (l2 & -> & Hd2).
  assert (Hlen : List.length l1 = List.length l2) by congruence.
  unfold defaultBehaviorDistanceFunction. rewrite Hlen, Nat.eqb_refl. reflexivity.
Qed.

Lemma default_distance_returns_on_stored_witness :
  returned (defaultBehaviorDistanceFunction example_sqrt example_ToNumber
              (fst (origin, VStr "g1")) (fst (far, VStr "g2")))
  = true.
Proof.
  apply (default_distance_returns_on_stored
           example_sqrt example_ToNumber example_config pair).
  - exists [NoteBehavior origin (VStr "g1"); NoteBehavior far (VStr "g2")].
    reflexivity.
  - left. reflexivity.
  - right. left. reflexivity.
Defined.

(** X15.  On two arrays of numbers of one length,
    [defaultBehaviorDistanceFunction] returns the square root of the sum of
    the squared differences, position by position; that sum is never
    negative, and it is zero when the two arrays hold the same numbers. *)
Theorem default_distance_is_root_of_squares
        (Math_sqrt : Q -> Q) (ToNumber : value -> Q) (a b : list Q) :
  List.length a = List.length b ->
  exists s,
    defaultBehaviorDistanceFunction Math_sqrt ToNumber (vector a) (vector b)
    = Return (Math_sqrt s)
    /\ (s == sum_of_squares a b)%Q
    /\ (0 <= s)%Q
    /\ (Forall2 Qeq a b -> (s == 0)%Q).
Proof.
  intro Hlen.
  exists (distance_loop ToNumber (map VNum a) (map VNum b) (seq 0 (List.length a)) 0%Q).
  assert (Hs : (distance_loop ToNumber (map VNum a) (map VNum b)
                              (seq 0 (List.length a)) 0
                == sum_of_squares a b)%Q).
  { rewrite distance_loop_vectors by exact Hlen. ring. }
  split.
  - unfold defaultBehaviorDistanceFunction, vector.
    rewrite !length_map, Hlen, Nat.eqb_refl. reflexivity.
  - split; [exact Hs|]. rewrite Hs. split.
    + apply sum_of_squares_nonnegative.
    + apply sum_of_squares_same.
Qed.

Lemma default_distance_is_root_of_squares_witness :
  exists s,
    defaultBehaviorDistanceFunction example_sqrt example_ToNumber
      (vector [0; 0]%Q) (vector [3; 4]%Q)
    = Return (example_sqrt s)
    /\ (s == sum_of_squares [0; 0]%Q [3; 4]%Q)%Q
    /\ (0 <= s)%Q
    /\ (Forall2 Qeq [0; 0]%Q [3; 4]%Q -> (s == 0)%Q).
Proof.
  apply (default_distance_is_root_of_squares
           example_sqrt example_ToNumber [0; 0]%Q [3; 4]%Q).
  reflexivity.
Defined.

(** X16.  [defaultBehaviorDistanceFunction] is symmetric: with its two
    arguments exchanged it returns the same number, or throws the same
    exception. *)
Theorem default_distance_symmetric
        (Math_sqrt : Q -> Q) (ToNumber : value -> Q) (x y : value) :
  defaultBehaviorDistanceFunction Math_sqrt ToNumber x y
  = defaultBehaviorDistanceFunction Math_sqrt ToNumber y x.
Proof.
  destruct x as [| |bx|qx|sx|a], y as [| |bz|qz|sz|b]; try reflexivity.
  unfold defaultBehaviorDistanceFunction. rewrite (Nat.eqb_sym (List.length b)).
  destruct (Nat.eqb_spec (List.length a) (List.length b)) as [Hlen|_];
    [|reflexivity].
  rewrite Hlen, distance_loop_symmetric. reflexivity.
Qed.

(** The default distance between (0, 0) and (3, 4), with a square root that
    is exact on squares. *)
Example default_distance_3_4 :
  defaultBehaviorDistanceFunction example_sqrt example_ToNumber
    (vector [0; 0]%Q) (vector [3; 4]%Q)
  = Return 5%Q.
Proof. vm_compute. reflexivity. Qed.

(** *** The genome identifier is opaque *)

Lemma sibling_distances_behaviors (cfg : config) (behavior : value) (idx : nat)
      (recent : list observation) :
  forall recent' i,
    map fst recent = map fst recent' ->
    sibling_distances cfg behavior idx i recent
    = sibling_distances cfg behavior idx i recent'.
Proof.
  induction recent as [|o recent IH]; intros recent' i H.
  - destruct recent'; [reflexivity|discriminate].
  - destruct recent' as [|o' recent']; [discriminate|].
    simpl in H. injection H as Ho Hrest. simpl.
    rewrite Ho, (IH recent' (S i) Hrest). reflexivity.
Qed.

Lemma nth_error_same_behavior (recent : list observation) :
  forall (recent' : list observation) (i : nat),
    map fst recent = map fst recent' ->
    match nth_error recent i, nth_error recent' i with
    | Some o, Some o' => fst o = fst o'
    | None, None => True
    | _, _ => False
    end.
Proof.
  induction recent as [|o recent IH]; intros recent' i H.
  - destruct recent'; [|discriminate]. destruct i; exact I.
  - destruct recent' as [|o' recent']; [discriminate|].
    simpl in H. injection H as Ho Hrest.
    destruct i as [|i]; simpl; [exact Ho|apply IH, Hrest].
Qed.

Lemma measureSparsity_behaviors (cfg : config) (st st' : archive_state) (i : nat) :
  map fst (behaviorArchive st) = map fst (behaviorArchive st') ->
  map fst (recentBehaviors st) = map fst (recentBehaviors st') ->
  measureSparsity cfg st i = measureSparsity cfg st' i.
Proof.
  intros Ha Hr. unfold measureSparsity.
  pose proof (nth_error_same_behavior _ _ i Hr) as Hnth.
  destruct (nth_error (recentBehaviors st) i) as [o|] eqn:E1;
    destruct (nth_error (recentBehaviors st') i) as [o'|] eqn:E2;
    try contradiction; [|reflexivity].
  cbv zeta.
  assert (Hds : distances_of cfg st (fst o) i = distances_of cfg st' (fst o') i).
  { unfold distances_of. rewrite <- Hnth.
    rewrite (sibling_distances_behaviors cfg (fst o) i _ _ 0 Hr).
    f_equal.
    rewrite <- (map_map fst (fun b => measureBehaviorDistance cfg b (fst o))).
    rewrite <- (map_map fst (fun b => measureBehaviorDistance cfg b (fst o))
                        (behaviorArchive st')).
    rewrite Ha. reflexivity. }
  rewrite Hds. reflexivity.
Qed.

(** X17.  [getSparsities] never reads a genome identifier: in two reachable
    states that store the same behaviors in the same order, in the archive
    and in the buffer, it returns the same sparsities, or throws the same
    exception, whatever the genomes are. *)
Theorem sparsities_ignore_genomes (cfg : config) (st st' : archive_state) :
  reachable cfg st ->
  reachable cfg st' ->
  map fst (behaviorArchive st) = map fst (behaviorArchive st') ->
  map fst (recentBehaviors st) = map fst (recentBehaviors st') ->
  fst (getSparsities cfg st) = fst (getSparsities cfg st').
Proof.
  intros Hreach Hreach' Ha Hr.
  destruct (reachable_invariant cfg st Hreach) as (Hcache & _).
  destruct (reachable_invariant cfg st' Hreach') as (Hcache' & _).
  assert (Hla : List.length (behaviorArchive st) = List.length (behaviorArchive st')).
  { pose proof (f_equal (@List.length value) Ha) as H.
    rewrite !length_map in H. exact H. }
  assert (Hlr : List.length (recentBehaviors st) = List.length (recentBehaviors st')).
  { pose proof (f_equal (@List.length value) Hr) as H.
    rewrite !length_map in H. exact H. }
  destruct (recentBehaviors st) as [|o recent] eqn:E.
  - assert (E' : recentBehaviors st' = []).
    { destruct (recentBehaviors st'); [reflexivity|discriminate]. }
    rewrite getSparsities_empty by exact E.
    rewrite getSparsities_empty by exact E'. reflexivity.
  - assert (Hne : recentBehaviors st <> []) by (rewrite E; discriminate).
    assert (Hne' : recentBehaviors st' <> []).
    { destruct (recentBehaviors st'); [discriminate|discriminate]. }
    rewrite <- E in *.
    destruct (has_candidates_dec st) as [Hc|Hnc].
    + assert (Hc' : has_candidates st').
      { unfold has_candidates in *. lia. }
      rewrite !getSparsities_returns by assumption. simpl. f_equal.
      unfold sparsity_values. rewrite Hlr. apply map_ext. intro i.
      rewrite (measureSparsity_behaviors cfg st st' i Ha Hr). reflexivity.
    + assert (Hnc' : ~ has_candidates st').
      { unfold has_candidates in *. lia. }
      rewrite !getSparsities_alone by assumption. reflexivity.
Qed.

Lemma sparsities_ignore_genomes_witness :
  fst (getSparsities example_config pair)
  = fst (getSparsities example_config pair_renamed).
Proof.
  apply (sparsities_ignore_genomes example_config pair pair_renamed).
  - exists [NoteBehavior origin (VStr "g1"); NoteBehavior far (VStr "g2")].
    reflexivity.
  - exists [NoteBehavior origin (VStr "a"); NoteBehavior far (VStr "b")].
    reflexivity.
  - reflexivity.
  - reflexivity.
Defined.
